(** * MPLookup: the MP resolver, the e-mail composer and the usage counter

    A shallow embedding of [src/components/MPLookup.tsx].  JavaScript strings
    are sequences of UTF-16 code units, so a string is a [list N]; the React
    state of the component is a record, every [setX] call is a record update,
    and the effects the component performs (network requests, the timer of
    the text search, tracking beacons) are appended to a log. *)

From Stdlib Require Import List NArith ZArith Bool Lia Ascii String QArith Qround.
From Stdlib Require Import DecimalString.
Import ListNotations.

(** ** JavaScript strings *)

Module Js.

Definition codeunit := N.
Definition jsstring := list codeunit.

(** An ASCII literal of the source, as code units. *)
Definition lit (s : string) : jsstring :=
  map N_of_ascii (list_ascii_of_string s).

Definition quote : codeunit := 34%N.      (* the double quote *)
Definition emdash : codeunit := 8212%N.   (* U+2014 *)
Definition newline : codeunit := 10%N.
Definition comma : codeunit := 44%N.
Definition lbracket : codeunit := 91%N.
Definition dollar : codeunit := 36%N.

Definition eqb (a b : jsstring) : bool :=
  if list_eq_dec N.eq_dec a b then true else false.

(** [WhiteSpace] and [LineTerminator] of ECMAScript: what [trim] strips and
    what [\s] matches. *)
Definition isWhiteSpace (c : codeunit) : bool :=
  ((9 <=? c) && (c <=? 13) || (c =? 32) || (c =? 160) || (c =? 5760)
   || (8192 <=? c) && (c <=? 8202) || (c =? 8232) || (c =? 8233)
   || (c =? 8239) || (c =? 8287) || (c =? 12288) || (c =? 65279))%N.

(** [\d] *)
Definition isDigit (c : codeunit) : bool := ((48 <=? c) && (c <=? 57))%N.

(** [[A-Za-z]] *)
Definition isUpperAZ (c : codeunit) : bool := ((65 <=? c) && (c <=? 90))%N.
Definition isLowerAZ (c : codeunit) : bool := ((97 <=? c) && (c <=? 122))%N.
Definition isLetter (c : codeunit) : bool := isUpperAZ c || isLowerAZ c.

Fixpoint dropWhile (p : codeunit -> bool) (s : jsstring) : jsstring :=
  match s with
  | [] => []
  | c :: r => if p c then dropWhile p r else s
  end.

Definition trimStart (s : jsstring) : jsstring := dropWhile isWhiteSpace s.
Definition trimEnd (s : jsstring) : jsstring :=
  rev (dropWhile isWhiteSpace (rev s)).

(** [String.prototype.trim] *)
Definition trim (s : jsstring) : jsstring := trimEnd (trimStart s).

(** [s.replace(/\s/g, '')] *)
Definition stripWhiteSpace (s : jsstring) : jsstring :=
  filter (fun c => negb (isWhiteSpace c)) s.

Fixpoint startsWith (s p : jsstring) : bool :=
  match p, s with
  | [], _ => true
  | _ :: _, [] => false
  | a :: p', b :: s' => (a =? b)%N && startsWith s' p'
  end.

(** [String.prototype.includes] *)
Fixpoint includes (s p : jsstring) : bool :=
  startsWith s p ||
  match s with
  | [] => false
  | _ :: r => includes r p
  end.

(** [s.split(sep)] for a separator of one code unit. *)
Fixpoint split (sep : codeunit) (s : jsstring) : list jsstring :=
  match s with
  | [] => [[]]
  | c :: r =>
      if (c =? sep)%N then [] :: split sep r
      else match split sep r with
           | h :: t => (c :: h) :: t
           | [] => [[c]]
           end
  end.

(** The ASCII part of the case mappings, used for concrete runs and to say
    what a change of letter case is. *)
Definition asciiLowerChar (c : codeunit) : codeunit :=
  if isUpperAZ c then (c + 32)%N else c.
Definition asciiUpperChar (c : codeunit) : codeunit :=
  if isLowerAZ c then (c - 32)%N else c.
Definition asciiLower (s : jsstring) : jsstring := map asciiLowerChar s.
Definition asciiUpper (s : jsstring) : jsstring := map asciiUpperChar s.

(** [n.toString()] for an integer. *)
Definition ofZ (z : Z) : jsstring := lit (NilZero.string_of_int (Z.to_int z)).
Definition ofNat (n : nat) : jsstring := ofZ (Z.of_nat n).

End Js.

Import Js.

(** ** Classification of the query as a postal code *)

(** [/^[A-Za-z]\d[A-Za-z]\s?\d[A-Za-z]\d$/.test(s)] *)
Definition postalCodePattern_test (s : jsstring) : bool :=
  match s with
  | [a; b; c; d; e; f] =>
      isLetter a && isDigit b && isLetter c &&
      isDigit d && isLetter e && isDigit f
  | [a; b; c; w; d; e; f] =>
      isLetter a && isDigit b && isLetter c && isWhiteSpace w &&
      isDigit d && isLetter e && isDigit f
  | _ => false
  end.


Close Scope Q_scope.

(** ** Data model *)

(** [interface MP] *)
Record MP := mkMP {
  firstName : jsstring;
  lastName : jsstring;
  fullName : jsstring;
  constituency : jsstring;
  province : jsstring;
  party : jsstring;
  email : jsstring;
  isDefault : option bool;
  actualConstituency : option jsstring;
  postalCode : option jsstring
}.

(** The template fixture [email-templates.json]. *)
Record Template := mkTemplate { body : jsstring }.

Record EmailTemplates := mkTemplates {
  regularTemplates : list Template;
  primeMinisterTemplate : Template;
  frenchTemplates : list Template
}.

(** One entry of the boundary list of the geocoding service, and the part of
    its answer that [searchMP] reads.  A missing property is [None]; every
    entry of the service has a [name]. *)
Record Boundary := mkBoundary {
  boundary_set_name : option jsstring;
  name : jsstring
}.

Record PostcodeData := mkData {
  boundaries_centroid : option (list Boundary);
  boundaries_concordance : option (list Boundary)
}.

(** A thrown value: an [Error] object with its message, or anything else. *)
Inductive JsException :=
| ErrorObject (message : jsstring)
| OtherValue.

(** What [await fetch(url)] followed by [await response.json()] can do. *)
Inductive FetchOutcome :=
| FetchRejected (e : JsException)
| Response (ok : bool) (json : JsException + PostcodeData).

(** The effects of the component that leave it. *)
Inductive Effect :=
| Fetch (url : jsstring)
| SetTimeout (ms : nat)
| TrackEvent (eventType mpName constituencyName : jsstring).

(** The React state of the component (the part the search, the composer and
    the counter use). *)
Record State := mkState {
  searchInput : jsstring;
  mp : option MP;
  loading : bool;
  error : jsstring;
  allMPs : list MP;
  suggestions : list MP;
  usedPostalCode : bool;
  emailTemplates : option EmailTemplates;
  emailCount : option nat
}.

(** The state together with the log of effects performed so far. *)
Record World := mkWorld {
  ui : State;
  effects : list Effect
}.

Definition onState (f : State -> State) (w : World) : World :=
  mkWorld (f (ui w)) (effects w).

Definition setMp (v : option MP) : World -> World :=
  onState (fun s => mkState (searchInput s) v (loading s) (error s) (allMPs s)
                      (suggestions s) (usedPostalCode s) (emailTemplates s)
                      (emailCount s)).
Definition setLoading (v : bool) : World -> World :=
  onState (fun s => mkState (searchInput s) (mp s) v (error s) (allMPs s)
                      (suggestions s) (usedPostalCode s) (emailTemplates s)
                      (emailCount s)).
Definition setError (v : jsstring) : World -> World :=
  onState (fun s => mkState (searchInput s) (mp s) (loading s) v (allMPs s)
                      (suggestions s) (usedPostalCode s) (emailTemplates s)
                      (emailCount s)).
Definition setSuggestions (v : list MP) : World -> World :=
  onState (fun s => mkState (searchInput s) (mp s) (loading s) (error s)
                      (allMPs s) v (usedPostalCode s) (emailTemplates s)
                      (emailCount s)).
Definition setUsedPostalCode (v : bool) : World -> World :=
  onState (fun s => mkState (searchInput s) (mp s) (loading s) (error s)
                      (allMPs s) (suggestions s) v (emailTemplates s)
                      (emailCount s)).
Definition setSearchInput (v : jsstring) : World -> World :=
  onState (fun s => mkState v (mp s) (loading s) (error s) (allMPs s)
                      (suggestions s) (usedPostalCode s) (emailTemplates s)
                      (emailCount s)).

Definition perform (e : Effect) (w : World) : World :=
  mkWorld (ui w) (effects w ++ [e]).

(** [trackEvent]: a fire-and-forget POST to the form endpoint. *)
Definition trackEvent (eventType mpName constituencyName : jsstring)
  : World -> World :=
  perform (TrackEvent eventType mpName constituencyName).

(** Statements of a handler, run in order. *)
Definition seq (f g : World -> World) : World -> World := fun w => g (f w).
Notation "f ;; g" := (seq f g) (at level 61, right associativity).

Definition markCarneyName : jsstring := lit "Mark Carney".

(** ** The resolver *)

Section Resolver.

(** [String.prototype.toLowerCase] and [toUpperCase] are the Unicode case
    mappings of the JavaScript engine; the resolver is written over them. *)
Variable toLowerCase : jsstring -> jsstring.
Variable toUpperCase : jsstring -> jsstring.

(** [query.toUpperCase().replace(/\s/g, '')] *)
Definition normalizePostalCode (query : jsstring) : jsstring :=
  stripWhiteSpace (toUpperCase query).

Definition representUrl (queryUpper : jsstring) : jsstring :=
  lit "https://represent.opennorth.ca/postcodes/" ++ queryUpper
  ++ lit "/?sets=federal-electoral-districts".

(** [data.boundaries_centroid || data.boundaries_concordance || []]: an
    array, empty or not, is truthy. *)
Definition boundariesOf (data : PostcodeData) : list Boundary :=
  match boundaries_centroid data with
  | Some l => l
  | None => match boundaries_concordance data with
            | Some l => l
            | None => []
            end
  end.

Definition isFederal (b : Boundary) : bool :=
  match boundary_set_name b with
  | Some n => negb (eqb n []) && includes (toLowerCase n) (lit "federal")
  | None => false
  end.

Definition federalDistrict (data : PostcodeData) : option Boundary :=
  find isFederal (boundariesOf data).

(** The first test of the roster: equality of the lower-cased names. *)
Definition exactMatch (constituencyName : jsstring) (m : MP) : bool :=
  eqb (toLowerCase (constituency m)) (toLowerCase constituencyName).

(** [constituencyName.split('—')[0].toLowerCase().trim()] *)
Definition constituencyFirstPart (constituencyName : jsstring) : jsstring :=
  trim (toLowerCase (hd [] (split emdash constituencyName))).

Definition prefixMatch (constituencyName : jsstring) (m : MP) : bool :=
  startsWith (toLowerCase (constituency m))
             (constituencyFirstPart constituencyName).

(** [foundMP] after both attempts. *)
Definition findMP (roster : list MP) (constituencyName : jsstring) : option MP :=
  match find (exactMatch constituencyName) roster with
  | Some m => Some m
  | None => find (prefixMatch constituencyName) roster
  end.

Definition isMarkCarney (m : MP) : bool := eqb (fullName m) markCarneyName.

(** [{...markCarney, isDefault: true, actualConstituency, postalCode}] *)
Definition defaultMP (markCarney : MP) (constituencyName queryUpper : jsstring) : MP :=
  mkMP (firstName markCarney) (lastName markCarney) (fullName markCarney)
       (constituency markCarney) (province markCarney) (party markCarney)
       (email markCarney) (Some true) (Some constituencyName) (Some queryUpper).

Definition msgEmpty : jsstring :=
  lit "Please enter a postal code, MP name, constituency, or city".
Definition msgTooShort : jsstring := lit "Please enter at least 2 characters".
Definition msgLookupFailed : jsstring :=
  lit "Unable to find MP for this postal code".
Definition msgNoFederal : jsstring :=
  lit "No federal constituency found for this postal code".
Definition msgLookupError : jsstring :=
  lit "Error looking up postal code. Try searching by constituency name instead.".
Definition msgVacant (constituencyName : jsstring) : jsstring :=
  lit "Note: The constituency " ++ [quote] ++ constituencyName ++ [quote]
  ++ lit " seat is currently vacant or not in our database. Your email will be sent to Mark Carney (Prime Minister) with your constituency information.".
Definition msgUnmatched (constituencyName : jsstring) : jsstring :=
  lit "Found constituency " ++ [quote] ++ constituencyName ++ [quote]
  ++ lit " but couldn't match with MP database. Try searching by name instead.".
Definition msgNotFound : jsstring :=
  lit "No MP found. Try searching by postal code, MP name, constituency, city, or province.".
Definition msgMatches (n : nat) : jsstring :=
  lit "Found " ++ ofNat n ++ lit " matches. Please select one below:".

Definition evSearchMP : jsstring := lit "Search MP".

(** The part of the [try] block that can throw: the response is checked and
    the name of the federal district is read from it. *)
Definition lookupDistrict (r : FetchOutcome) : JsException + jsstring :=
  match r with
  | FetchRejected e => inl e
  | Response false _ => inl (ErrorObject msgLookupFailed)
  | Response true (inl e) => inl e
  | Response true (inr data) =>
      match federalDistrict data with
      | None => inl (ErrorObject msgNoFederal)
      | Some b => inr (name b)
      end
  end.

(** [err instanceof Error ? err.message : '...'] *)
Definition catchMessage (e : JsException) : jsstring :=
  match e with
  | ErrorObject m => m
  | OtherValue => msgLookupError
  end.

(** The rest of the [try] block, once the district is known. *)
Definition resolveDistrict (roster : list MP) (constituencyName queryUpper : jsstring)
  : World -> World :=
  match findMP roster constituencyName with
  | Some foundMP =>
      setMp (Some foundMP) ;;
      trackEvent evSearchMP (fullName foundMP) (constituency foundMP)
  | None =>
      match find isMarkCarney roster with
      | Some markCarney =>
          setMp (Some (defaultMP markCarney constituencyName queryUpper)) ;;
          trackEvent evSearchMP (fullName markCarney) constituencyName ;;
          setError (msgVacant constituencyName)
      | None => setError (msgUnmatched constituencyName)
      end
  end.

(** The postal-code branch. *)
Definition postalPath (fetch : jsstring -> FetchOutcome) (roster : list MP)
    (queryUpper : jsstring) : World -> World :=
  setUsedPostalCode true ;;
  perform (Fetch (representUrl queryUpper)) ;;
  match lookupDistrict (fetch (representUrl queryUpper)) with
  | inr constituencyName => resolveDistrict roster constituencyName queryUpper
  | inl e => setError (catchMessage e)
  end ;;
  setLoading false.

(** The predicate of the [filter] of the text search. *)
Definition textMatch (queryLower : jsstring) (m : MP) : bool :=
  includes (toLowerCase (fullName m)) queryLower ||
  includes (toLowerCase (constituency m)) queryLower ||
  includes (toLowerCase (province m)) queryLower ||
  includes (toLowerCase (lastName m)) queryLower ||
  includes (toLowerCase (firstName m)) queryLower.

(** [results.slice(0, 10)] is [firstn 10 results]. *)
Definition textPath (roster : list MP) (query : jsstring) : World -> World :=
  perform (SetTimeout 300) ;;
  (let queryLower := toLowerCase query in
   let results := filter (textMatch queryLower) roster in
   match results with
   | [] => setError msgNotFound
   | [m] => setMp (Some m) ;; trackEvent evSearchMP (fullName m) (constituency m)
   | _ => setSuggestions (firstn 10 results) ;;
          setError (msgMatches (List.length results))
   end) ;;
  setLoading false.

(** [searchMP], run until the request or the timer it starts has completed.
    [fetch] is the answer of the network to a GET of the given URL. *)
Definition searchMP (fetch : jsstring -> FetchOutcome) (w : World) : World :=
  let query := trim (searchInput (ui w)) in
  if eqb query [] then setError msgEmpty w
  else if (List.length query <? 2)%nat then setError msgTooShort w
  else
    (setLoading true ;;
     setError [] ;;
     setMp None ;;
     setSuggestions [] ;;
     setUsedPostalCode false ;;
     (let queryUpper := normalizePostalCode query in
      if postalCodePattern_test query
      then postalPath fetch (allMPs (ui w)) queryUpper
      else textPath (allMPs (ui w)) query)) w.

(** [selectMP] *)
Definition selectMP (selectedMP : MP) : World -> World :=
  setMp (Some selectedMP) ;;
  setSuggestions [] ;;
  setError [] ;;
  setSearchInput (fullName selectedMP) ;;
  trackEvent evSearchMP (fullName selectedMP) (constituency selectedMP).

End Resolver.

(** ** Dates *)

Module JsDate.

Local Open Scope Z_scope.

Definition msPerDay : Z := 1000 * 60 * 60 * 24.

(** The local time zone: its offset from UTC in milliseconds, at a UTC
    instant and at a local time value ([LocalTZA] of ECMAScript). *)
Record TimeZone := mkZone {
  offsetAtUTC : Z -> Z;
  offsetAtLocal : Z -> Z
}.

Definition fixedZone (off : Z) : TimeZone := mkZone (fun _ => off) (fun _ => off).

Definition LocalTime (tz : TimeZone) (t : Z) : Z := t + offsetAtUTC tz t.
Definition UTC (tz : TimeZone) (t : Z) : Z := t - offsetAtLocal tz t.

(** [Day(t)] *)
Definition Day (t : Z) : Z := t / msPerDay.

(** [d.setHours(0, 0, 0, 0)]: the time value of the local midnight that
    starts the local day of [t]. *)
Definition setHours0 (tz : TimeZone) (t : Z) : Z :=
  UTC tz (Day (LocalTime tz t) * msPerDay).

(** Days from 1970-01-01 to a date of the proleptic Gregorian calendar. *)
Definition daysFromCivil (y m d : Z) : Z :=
  let y' := if m <=? 2 then y - 1 else y in
  let era := y' / 400 in
  let yoe := y' - era * 400 in
  let doy := (153 * (m + (if 2 <? m then -3 else 9)) + 2) / 5 + d - 1 in
  let doe := yoe * 365 + yoe / 4 - yoe / 100 + doy in
  era * 146097 + doe - 719468.

(** [new Date('YYYY-MM-DD')]: a date-only string is read as UTC midnight. *)
Definition parseDateOnly (y m d : Z) : Z := daysFromCivil y m d * msPerDay.

End JsDate.

Import JsDate.

(** ** The composer *)

Inductive Language := En | Fr.

(** A string-valued expression either has a value or throws the [TypeError]
    of reading [.body] of [undefined]. *)
Inductive Completion :=
| Normal (s : jsstring)
| TypeError.

Definition tokDaysCount : jsstring := lit "[DAYS_COUNT]".
Definition tokMpName : jsstring := lit "[MP_NAME]".
Definition tokConstituencyInfo : jsstring := lit "[CONSTITUENCY_INFO]".

(** [GetSubstitution] for a string pattern (no captures): [$$], [$&], [$`]
    and [$'] are expanded in the replacement, any other [$] is literal. *)
Fixpoint getSubstitution (matched before after r : jsstring) : jsstring :=
  match r with
  | [] => []
  | c :: r' =>
      if (c =? dollar)%N then
        match r' with
        | [] => [dollar]
        | d :: r'' =>
            if (d =? 36)%N then dollar :: getSubstitution matched before after r''
            else if (d =? 38)%N then matched ++ getSubstitution matched before after r''
            else if (d =? 96)%N then before ++ getSubstitution matched before after r''
            else if (d =? 39)%N then after ++ getSubstitution matched before after r''
            else dollar :: getSubstitution matched before after r'
        end
      else c :: getSubstitution matched before after r'
  end.

(** [replaceFrom pat rep before s]: what [replace] puts after [before] when
    it has found no occurrence of [pat] that starts in [before]. *)
Fixpoint replaceFrom (pat rep before s : jsstring) : jsstring :=
  if startsWith s pat then
    let after := skipn (List.length pat) s in
    getSubstitution pat before after rep ++ after
  else
    match s with
    | [] => []
    | c :: r => c :: replaceFrom pat rep (before ++ [c]) r
    end.

(** [s.replace(pat, rep)] for a string [pat]: the first occurrence only. *)
Definition replace (s pat rep : jsstring) : jsstring := replaceFrom pat rep [] s.

(** January 8, 2026 *)
Definition startDateParsed : Z := parseDateOnly 2026 1 8.

(** [diffDays] of [getEmailTemplate], with the clock reading [now].
    Time values are integers of milliseconds; for the time values a clock
    can read, the quotient by [msPerDay] is exact enough in doubles for
    [Math.floor] of it to be the floor division of the integers. *)
Definition diffDays (tz : TimeZone) (now : Z) : Z :=
  let startDate := setHours0 tz startDateParsed in
  let today := setHours0 tz now in
  let diffTime := (today - startDate)%Z in
  (diffTime / msPerDay)%Z.

(** [Math.floor(Math.random() * len)], for a draw [r] of [Math.random()]. *)
Definition randomIndex (r : Q) (len : nat) : Z :=
  Qfloor (r * inject_Z (Z.of_nat len))%Q.

(** [templates[i].body] *)
Definition bodyAt (templates : list Template) (i : Z) : Completion :=
  if (i <? 0)%Z then TypeError
  else match nth_error templates (Z.to_nat i) with
       | Some t => Normal (body t)
       | None => TypeError
       end.

(** The choice of [template] in [getEmailTemplate]. *)
Definition chooseTemplate (T : EmailTemplates) (r : Q) (mpData : MP)
    (language : Language) : Completion :=
  match language with
  | Fr => bodyAt (frenchTemplates T)
                 (randomIndex r (List.length (frenchTemplates T)))
  | En =>
      if eqb (fullName mpData) markCarneyName
      then Normal (body (primeMinisterTemplate T))
      else bodyAt (regularTemplates T)
                  (randomIndex r (List.length (regularTemplates T)))
  end.

Definition getEmailTemplate (templates : option EmailTemplates)
    (tz : TimeZone) (now : Z) (r : Q) (mpData : MP) (language : Language)
  : Completion :=
  match templates with
  | None => Normal []
  | Some T =>
      match chooseTemplate T r mpData language with
      | Normal template =>
          Normal (replace template tokDaysCount (ofZ (diffDays tz now)))
      | TypeError => TypeError
      end
  end.

Definition truthy (s : option jsstring) : bool :=
  match s with
  | Some (_ :: _) => true
  | _ => false
  end.

Definition orEmpty (s : option jsstring) : jsstring :=
  match s with Some v => v | None => [] end.

(** The note appended for a vacant seat. *)
Definition constituencyNote (mpData : MP) (language : Language) : jsstring :=
  match language with
  | Fr =>
      [newline; newline] ++ lit "Note: J'" ++ [233%N]
      ++ lit "cris de la circonscription " ++ orEmpty (actualConstituency mpData)
      ++ (if truthy (postalCode mpData)
          then lit " (Code postal: " ++ orEmpty (postalCode mpData) ++ lit ")"
          else [])
      ++ lit ", qui a actuellement un si" ++ [232%N]
      ++ lit "ge vacant. Je vous contacte en tant que Premier ministre pour m'assurer que cette question importante re"
      ++ [231%N] ++ lit "oit l'attention n" ++ [233%N] ++ lit "cessaire."
  | En =>
      [newline; newline] ++ lit "Note: I am writing from the "
      ++ orEmpty (actualConstituency mpData) ++ lit " constituency"
      ++ (if truthy (postalCode mpData)
          then lit " (Postal Code: " ++ orEmpty (postalCode mpData) ++ lit ")"
          else [])
      ++ lit ", which currently has a vacant seat. I am reaching out to you as Prime Minister to ensure this important issue receives attention."
  end.

Definition isFallback (mpData : MP) : bool :=
  match isDefault mpData with
  | Some true => truthy (actualConstituency mpData)
  | _ => false
  end.

Definition locationInfo (mpData : MP) : jsstring :=
  constituency mpData ++ lit ", " ++ province mpData.

(** The three replacements and the note, applied to a template body. *)
Definition fillBody (template : jsstring) (mpData : MP) (language : Language)
  : jsstring :=
  let emailBody := replace template tokMpName (fullName mpData) in
  let emailBody := replace emailBody tokMpName (fullName mpData) in
  let emailBody := replace emailBody tokConstituencyInfo (locationInfo mpData) in
  if isFallback mpData then emailBody ++ constituencyNote mpData language
  else emailBody.

(** [emailBody] of [createMailtoLink], before it is percent-encoded. *)
Definition emailBody (templates : option EmailTemplates) (tz : TimeZone)
    (now : Z) (r : Q) (mpData : MP) (language : Language) : Completion :=
  match getEmailTemplate templates tz now r mpData language with
  | Normal t => Normal (fillBody t mpData language)
  | TypeError => TypeError
  end.

Definition subjectOf (language : Language) : jsstring :=
  match language with
  | Fr => lit "RE: Appel urgent au soutien du peuple iranien et " ++ [224%N]
          ++ lit " la condamnation de la R" ++ [233%N]
          ++ lit "publique islamique"
  | En => lit "RE: Urgent Call for Support of the Iranian People and Condemnation of the Islamic Republic"
  end.

Section Mailto.

(** [encodeURIComponent] of the engine. *)
Variable encodeURIComponent : jsstring -> jsstring.

Definition createMailtoLink (templates : option EmailTemplates) (tz : TimeZone)
    (now : Z) (r : Q) (mpData : MP) (language : Language) : Completion :=
  match emailBody templates tz now r mpData language with
  | Normal b =>
      Normal (lit "mailto:" ++ email mpData ++ lit "?subject="
              ++ encodeURIComponent (subjectOf language) ++ lit "&body="
              ++ encodeURIComponent b)
  | TypeError => TypeError
  end.

End Mailto.

(** ** The usage counter *)


(** [LineTerminator]: what [.] of a regular expression does not match. *)
Definition isLineTerminator (c : codeunit) : bool :=
  ((c =? 10) || (c =? 13) || (c =? 8232) || (c =? 8233))%N.

(** [s.replace(re, '$1')] where [re] is, anchored at both ends, a double
    quote, a group of any characters but line terminators, and a double
    quote. *)
Definition stripQuotes (s : jsstring) : jsstring :=
  match s with
  | q :: rest =>
      match rev rest with
      | q' :: inner =>
          if (q =? quote)%N && (q' =? quote)%N
             && forallb (fun c => negb (isLineTerminator c)) inner
          then rev inner else s
      | [] => s
      end
  | [] => s
  end.

Definition sendEmail : jsstring := lit "Send email".

(** The body of the loop for one line: does the line count? *)
Definition isSendEmailRow (line : jsstring) : bool :=
  let columns := split comma line in
  if (1 <? List.length columns)%nat then
    let eventType := trim (nth 1 columns []) in
    let cleanEventType := stripQuotes eventType in
    eqb cleanEventType sendEmail
  else false.

(** The [for] loop over the lines from index 1 on. *)
Fixpoint countLoop (lines : list jsstring) (count : nat) : nat :=
  match lines with
  | [] => count
  | line :: rest =>
      countLoop rest (if isSendEmailRow line then S count else count)
  end.

(** The parser of [fetchEmailCount]: the value given to [setEmailCount]. *)
Definition countSendEmail (csvText : jsstring) : nat :=
  let lines := split newline (trim csvText) in
  if (List.length lines <=? 1)%nat then 0%nat
  else countLoop (skipn 1 lines) 0.



(** ** Notions the properties are stated with *)

(** A string of the shape letter, digit, letter, digit, letter, digit. *)
Definition postalShaped6 (s : jsstring) : bool :=
  match s with
  | [a; b; c; d; e; f] =>
      isLetter a && isDigit b && isLetter c &&
      isDigit d && isLetter e && isDigit f
  | _ => false
  end.


(** Two strings that differ at most in the case of their ASCII letters. *)
Definition sameUpToCase (s s' : jsstring) : Prop :=
  asciiLower s' = asciiLower s.

(** The five fields the text search looks at. *)
Definition fiveFields (m : MP) : list jsstring :=
  [fullName m; constituency m; province m; lastName m; firstName m].

(** A record is a hit of a query when the lower-cased query is a substring of
    one of its five lower-cased fields. *)
Definition isTextHit (toLowerCase : jsstring -> jsstring) (query : jsstring)
    (m : MP) : bool :=
  existsb (fun f => includes (toLowerCase f) (toLowerCase query)) (fiveFields m).

(** How many of the single result, the suggestion list and the error message
    are populated. *)
Definition populated (s : State) : nat :=
  (match mp s with Some _ => 1 | None => 0 end)
  + (match suggestions s with _ :: _ => 1 | [] => 0 end)
  + (match error s with _ :: _ => 1 | [] => 0 end).

(** The usage counter: [parts.join(sep)] *)
Fixpoint joinWith (sep : codeunit) (parts : list jsstring) : jsstring :=
  match parts with
  | [] => []
  | [p] => p
  | p :: rest => p ++ sep :: joinWith sep rest
  end.

(** The text of a sheet, from its rows of fields. *)
Definition csvOf (rows : list (list jsstring)) : jsstring :=
  joinWith newline (map (joinWith comma) rows).

(** A string without the given separator. *)
Definition noSep (sep : codeunit) (s : jsstring) : bool :=
  forallb (fun c => negb (c =? sep)%N) s.

(** A row that is one line and whose first two fields keep their place: no
    field holds a line feed and the first two hold no comma. *)
Definition plainRow (fields : list jsstring) : bool :=
  forallb (noSep newline) fields && forallb (noSep comma) (firstn 2 fields).

Definition quoted (s : jsstring) : jsstring := quote :: s ++ [quote].

(** The second field of a row is [Send email], in quotes or not, white space
    around it aside. *)
Definition secondColumnIsSendEmail (fields : list jsstring) : bool :=
  match fields with
  | _ :: c :: _ => eqb (trim c) sendEmail || eqb (trim c) (quoted sendEmail)
  | _ => false
  end.

Definition isBlank (s : jsstring) : bool := forallb isWhiteSpace s.

Fixpoint mapLast (f : jsstring -> jsstring) (l : list jsstring) : list jsstring :=
  match l with
  | [] => []
  | [x] => [f x]
  | x :: r => x :: mapLast f r
  end.

(** The composer: the three placeholders. *)
Inductive Token := DaysCount | MpName | ConstituencyInfo.

Definition tokenText (t : Token) : jsstring :=
  match t with
  | DaysCount => tokDaysCount
  | MpName => tokMpName
  | ConstituencyInfo => tokConstituencyInfo
  end.

Definition Token_eqb (a b : Token) : bool :=
  match a, b with
  | DaysCount, DaysCount | MpName, MpName
  | ConstituencyInfo, ConstituencyInfo => true
  | _, _ => false
  end.

(** A template body seen as text and placeholders in turn. *)
Inductive Piece :=
| Text (s : jsstring)
| Placeholder (t : Token).

Fixpoint render (ps : list Piece) : jsstring :=
  match ps with
  | [] => []
  | Text s :: r => s ++ render r
  | Placeholder t :: r => tokenText t ++ render r
  end.

(** The text between the placeholders has no opening bracket. *)
Fixpoint plainPieces (ps : list Piece) : bool :=
  match ps with
  | [] => true
  | Text s :: r => noSep lbracket s && plainPieces r
  | Placeholder _ :: r => plainPieces r
  end.


(** The first placeholder [t] of [ps] made the text [rep]. *)
Fixpoint fillFirst (t : Token) (rep : jsstring) (ps : list Piece) : list Piece :=
  match ps with
  | [] => []
  | Placeholder t' :: r =>
      if Token_eqb t t' then Text rep :: r
      else Placeholder t' :: fillFirst t rep r
  | Text s :: r => Text s :: fillFirst t rep r
  end.



(** A value put into a body: no opening bracket, and no dollar sign for
    [replace] to expand. *)
Definition plainValue (s : jsstring) : bool :=
  noSep lbracket s && noSep dollar s.

Definition plainRecord (m : MP) : bool :=
  plainValue (fullName m) && plainValue (constituency m)
  && plainValue (province m)
  && noSep lbracket (orEmpty (actualConstituency m))
  && noSep lbracket (orEmpty (postalCode m)).

(** No placeholder is left in a body. *)
Definition noPlaceholder (b : jsstring) : bool :=
  negb (includes b tokDaysCount) && negb (includes b tokMpName)
  && negb (includes b tokConstituencyInfo).

(** [replace] when the replacement has nothing to expand. *)
Fixpoint replacePlain (pat rep s : jsstring) : jsstring :=
  if startsWith s pat then rep ++ skipn (List.length pat) s
  else match s with
       | [] => []
       | c :: r => c :: replacePlain pat rep r
       end.

(** ** Sample data for concrete runs *)

Module Sample.

Definition carney : MP :=
  mkMP (lit "Mark") (lit "Carney") (lit "Mark Carney") (lit "Nepean")
       (lit "Ontario") (lit "Liberal") (lit "mark.carney@parl.gc.ca")
       None None None.

Definition jane : MP :=
  mkMP (lit "Jane") (lit "Doe") (lit "Jane Doe")
       (lit "Test" ++ [emdash] ++ lit "Riding") (lit "Quebec") (lit "NDP")
       (lit "jane.doe@parl.gc.ca") None None None.

Definition roster : list MP := [jane; carney].

(** The component with the given text in the search box and nothing else. *)
Definition world (input : jsstring) (mps : list MP) : World :=
  mkWorld (mkState input None false [] mps [] false None None) [].

(** An answer of the geocoding service that names the given federal
    district, and a network that gives it to every request. *)
Definition districtData (district : jsstring) : PostcodeData :=
  mkData (Some [mkBoundary (Some (lit "Federal electoral district")) district])
         None.

Definition federal (district : jsstring) (url : jsstring) : FetchOutcome :=
  Response true (inr (districtData district)).

Definition search (net : jsstring -> FetchOutcome) (input : jsstring)
    (mps : list MP) : World :=
  searchMP asciiLower asciiUpper net (world input mps).

End Sample.

(** A template set with three different one-line bodies. *)
Definition sampleTemplates : EmailTemplates :=
  mkTemplates [mkTemplate (lit "Dear [MP_NAME], [DAYS_COUNT] days. [CONSTITUENCY_INFO]")]
              (mkTemplate (lit "Dear Prime Minister, [DAYS_COUNT] days."))
              [mkTemplate (lit "Bonjour [MP_NAME], [DAYS_COUNT] jours. [CONSTITUENCY_INFO]")].

(** Eastern Standard Time, five hours behind UTC. *)
Definition est : TimeZone := fixedZone (-5 * 3600000).

(** Noon of January 8, 2026 on an EST clock, as a time value. *)
Definition noonJan8EST : Z :=
  (parseDateOnly 2026 1 8 + 12 * 3600000 + 5 * 3600000)%Z.

(** A sheet of a header and two events, one of them a sent e-mail. *)
Definition sampleHeader : list jsstring :=
  [lit "Timestamp"; lit "Event Type"; lit "Time"].
Definition sampleSend : list jsstring :=
  [lit "1/8/2026 10:00:00"; quoted (lit "Send email");
   quoted (lit "Thu, Jan 8, 10:00 AM EST")].
Definition sampleSearch : list jsstring :=
  [lit "1/8/2026 10:01:00"; lit "Search MP";
   quoted (lit "Thu, Jan 8, 10:01 AM EST")].


Definition doubledTemplates : EmailTemplates :=
  mkTemplates [mkTemplate (lit "[DAYS_COUNT] days, yes [DAYS_COUNT] days.")]
              (mkTemplate (lit "Dear Prime Minister, [DAYS_COUNT] days."))
              [].

(** ** More of the component *)

(** What the component shows of its state: the conditions of the JSX. *)

(** The red box with the message: [error && suggestions.length === 0]. *)
Definition showErrorBox (s : State) : bool :=
  match error s with
  | [] => false
  | _ :: _ => (List.length (suggestions s) =? 0)%nat
  end.

(** The list of suggestions: [suggestions.length > 0]. *)
Definition showSuggestions (s : State) : bool :=
  (0 <? List.length (suggestions s))%nat.

(** The card of the result: [mp && ...]. *)
Definition showResult (s : State) : bool :=
  match mp s with Some _ => true | None => false end.

(** The caveat about postal codes inside the card:
    [usedPostalCode && !mp.isDefault]. *)
Definition showPostalNote (s : State) : bool :=
  match mp s with
  | Some m =>
      usedPostalCode s &&
      negb (match isDefault m with Some true => true | _ => false end)
  | None => false
  end.

(** The box with the constituency of the visitor inside the card:
    [mp.isDefault && mp.actualConstituency]. *)
Definition showVacancyBox (s : State) : bool :=
  match mp s with
  | Some m => isFallback m
  | None => false
  end.




(** A string of ASCII and white-space characters only. *)
Definition asciiOrSpace (s : jsstring) : bool :=
  forallb (fun c => (c <? 128)%N || isWhiteSpace c) s.

(** The time value of [new Date(date + 'T12:00:00')] for a date of the
    calendar: a date-time without an offset is local time. *)
Definition parseLocalNoon (tz : TimeZone) (y m d : Z) : Z :=
  UTC tz (daysFromCivil y m d * msPerDay + 12 * 3600000)%Z.

(** The local calendar day [toLocaleDateString] writes for a time value. *)
Definition localDay (tz : TimeZone) (t : Z) : Z := Day (LocalTime tz t).

(** The day the drawer shows for a protest dated [y]-[m]-[d]. *)
Definition protestDay (tz : TimeZone) (y m d : Z) : Z :=
  localDay tz (parseLocalNoon tz y m d).

(** A state an earlier search has left behind, and a network that answers
    every request with a status that is not ok. *)
Definition staleWorld (input : jsstring) (mps : list MP) : World :=
  mkWorld (mkState input (Some Sample.carney) true (lit "old message") mps
             [Sample.carney] true None (Some 3%nat))
          [Fetch (lit "https://example.org/")].

Definition notFoundNetwork (url : jsstring) : FetchOutcome :=
  Response false (inl OtherValue).

(** ** The first version of the composer

    [getEmailTemplate] and [createMailtoLink] as they were before the
    templates moved to a fixture: one body, written in the component, with
    the day count put in by the template literal. *)

Module Legacy.

(** The template literal before and after [${diffDays}]. *)
Definition templateHead : jsstring :=
  lit "Dear [MP_NAME],

I am writing to you as one of your constituents. As I am writing this email, millions of Iranians have taken to the streets all over Iran since late December 2025, to protest against the Islamic Republic of Iran. The government has shut down the internet and phone lines. For ".

Definition templateTail : jsstring :=
  lit " consecutive days, we have been unable to reach our families in Iran. The regime has held the Iranian people hostage and by cutting off internet connectivity and isolating Iran from the outside world, it has intensified its crackdown on protesters. There have been reports that thousands of protestors have been killed and countless others injured.

As a Member of the Parliament of Canada, a country that is among the most diverse and home to one of the largest communities of the Iranian diaspora in the world, the role of your office extends far beyond the Canadian borders and your silence fails to stand with the Iranian-Canadians that looks to their elected representatives for leadership. As you know, for decades, the Iranian regime has held the country and the Iranians hostage, has engaged in systemic repression, including arbitrary detention, execution, torture, censorship and violent suppression of peaceful protests. In fact, the Government of Canada has formally recognized the Islamic Republic as a regime that has engaged in terrorism and systematic or gross human rights violations. Protestors are once again facing the brutality and terror of the Islamic Revolutionary Guard Corps (IRGC), which is recognized as a terrorist organization under the Criminal Code.

I appreciate the multitude of other issues before Parliament and the demands of your office.  However, we are at a pivotal and defining moment in history - one in which every statement, action and expression of support matters. Time is of the essence. A revolution is underway.

As a constituent, I ask that you publicly and unequivocally denounce the Islamic Republic of Iran, acknowledge and amplify the voices of the protestors in Iran, advocate within the Parliament for continued and expanded measures to hold Iranian officials accountable, support independent human rights investigations, and clearly stand with the people of Iran. When our leaders speak unequivocally and consistently, it sends a signal that Canada does not condone and will not normalize repression, terrorism, or overlook state violence.

This is a revolution for a free Iran and a better world. Stand with us.

[CONSTITUENCY_INFO]

Sincerely,
".

Definition getEmailTemplate (tz : TimeZone) (now : Z) : jsstring :=
  templateHead ++ ofZ (diffDays tz now) ++ templateTail.

Definition constituencyNote (mpData : MP) : jsstring :=
  [newline; newline] ++ lit "Note: I am writing from the "
  ++ orEmpty (actualConstituency mpData) ++ lit " constituency"
  ++ (if truthy (postalCode mpData)
      then lit " (Postal Code: " ++ orEmpty (postalCode mpData) ++ lit ")"
      else [])
  ++ lit ", which currently has a vacant seat. I am reaching out to you as Deputy Prime Minister to ensure this important issue receives attention.".

(** [emailBody] of [createMailtoLink], before it is percent-encoded. *)
Definition emailBody (tz : TimeZone) (now : Z) (mpData : MP) : jsstring :=
  let emailBody :=
    replace (getEmailTemplate tz now) tokMpName (fullName mpData) in
  let emailBody := replace emailBody tokMpName (fullName mpData) in
  let emailBody :=
    replace emailBody tokConstituencyInfo (locationInfo mpData) in
  if isFallback mpData then emailBody ++ constituencyNote mpData
  else emailBody.

Definition createMailtoLink (encodeURIComponent : jsstring -> jsstring)
    (tz : TimeZone) (now : Z) (mpData : MP) : jsstring :=
  lit "mailto:" ++ email mpData ++ lit "?subject="
  ++ encodeURIComponent (subjectOf En) ++ lit "&body="
  ++ encodeURIComponent (emailBody tz now mpData).

(** The text of the body around its two placeholders and the day count. *)
Definition opening : jsstring := lit "Dear ".
Definition beforeDays : jsstring :=
  skipn (List.length (opening ++ tokMpName)) templateHead.
Definition closing : jsstring :=
  [newline; newline] ++ lit "Sincerely," ++ [newline].
Definition afterDays : jsstring :=
  firstn (List.length templateTail
          - List.length (tokConstituencyInfo ++ closing))
         templateTail.

End Legacy.

(** A row of the sheet for an e-mail sent in French. *)
Definition sampleFrench : list jsstring :=
  [lit "1/8/2026 10:02:00"; lit "Send email (French)";
   quoted (lit "Thu, Jan 8, 10:02 AM EST")].

(** * Properties *)

Lemma jseqb_eq (a b : jsstring) : Js.eqb a b = true <-> a = b.
Proof.
  unfold Js.eqb. destruct (list_eq_dec N.eq_dec a b); split; congruence.
Qed.

Lemma jseqb_neq (a b : jsstring) : Js.eqb a b = false <-> a <> b.
Proof.
  unfold Js.eqb. destruct (list_eq_dec N.eq_dec a b); split; congruence.
Qed.

(** ** Character classes *)

Lemma isLetter_spec c :
  isLetter c = true <-> (65 <= c <= 90 \/ 97 <= c <= 122)%N.
Proof.
  unfold isLetter, isUpperAZ, isLowerAZ.
  rewrite orb_true_iff, !andb_true_iff, !N.leb_le. tauto.
Qed.

Lemma isDigit_spec c : isDigit c = true <-> (48 <= c <= 57)%N.
Proof.
  unfold isDigit. rewrite andb_true_iff, !N.leb_le. tauto.
Qed.

Ltac bool_to_prop :=
  repeat match goal with
  | H : _ && _ = true |- _ => apply andb_true_iff in H; destruct H
  | H : _ || _ = true |- _ => apply orb_true_iff in H; destruct H
  | H : (_ <=? _)%N = true |- _ => apply N.leb_le in H
  | H : (_ =? _)%N = true |- _ => apply N.eqb_eq in H
  end.

Lemma letter_not_space c : isLetter c = true -> isWhiteSpace c = false.
Proof.
  intros H. apply not_true_is_false. intros W.
  apply isLetter_spec in H. unfold isWhiteSpace in W.
  bool_to_prop; lia.
Qed.

Lemma digit_not_space c : isDigit c = true -> isWhiteSpace c = false.
Proof.
  intros H. apply not_true_is_false. intros W.
  apply isDigit_spec in H. unfold isWhiteSpace in W.
  bool_to_prop; lia.
Qed.

Lemma letter_not_digit c : isLetter c = true -> isDigit c = false.
Proof.
  intros H. apply not_true_is_false. intros W.
  apply isLetter_spec in H. apply isDigit_spec in W. lia.
Qed.



Lemma lower_char_cases x a :
  asciiLowerChar x = asciiLowerChar a ->
  x = a \/ (isLetter x = true /\ isLetter a = true).
Proof.
  unfold asciiLowerChar, isUpperAZ. rewrite !isLetter_spec.
  destruct (N.leb_spec 65 x), (N.leb_spec x 90), (N.leb_spec 65 a),
    (N.leb_spec a 90); simpl; intros; lia.
Qed.

Lemma lower_char_classes x a :
  asciiLowerChar x = asciiLowerChar a ->
  isLetter x = isLetter a /\ isDigit x = isDigit a /\
  isWhiteSpace x = isWhiteSpace a.
Proof.
  intros H. apply lower_char_cases in H. destruct H as [-> | [Hx Ha]]; auto.
  rewrite Hx, Ha.
  rewrite (letter_not_digit _ Hx), (letter_not_digit _ Ha).
  rewrite (letter_not_space _ Hx), (letter_not_space _ Ha). auto.
Qed.

(** ** The classification does not look at the case of letters *)

Lemma dropWhile_space_case s : forall s',
  sameUpToCase s s' ->
  sameUpToCase (dropWhile isWhiteSpace s) (dropWhile isWhiteSpace s').
Proof.
  unfold sameUpToCase.
  induction s as [|a s IH]; intros [|x s'] H; simpl in *; try discriminate; auto.
  injection H as Hc Hr.
  destruct (lower_char_classes _ _ Hc) as (_ & _ & W). rewrite W.
  destruct (isWhiteSpace a); auto. simpl. now rewrite Hc, Hr.
Qed.

Lemma rev_case s s' : sameUpToCase s s' -> sameUpToCase (rev s) (rev s').
Proof.
  unfold sameUpToCase, asciiLower. intros H. now rewrite !map_rev, H.
Qed.

Lemma trim_case s s' : sameUpToCase s s' -> sameUpToCase (trim s) (trim s').
Proof.
  intros H. unfold trim, trimEnd, trimStart.
  now apply rev_case, dropWhile_space_case, rev_case, dropWhile_space_case.
Qed.

Ltac same_case_chars :=
  repeat match goal with
  | Hc : asciiLowerChar _ = asciiLowerChar _ |- _ =>
      let L := fresh "L" in let D := fresh "D" in let W := fresh "W" in
      destruct (lower_char_classes _ _ Hc) as (L & D & W);
      rewrite ?L, ?D, ?W; clear Hc L D W
  end.

Lemma postalCodePattern_test_case s s' :
  sameUpToCase s s' -> postalCodePattern_test s' = postalCodePattern_test s.
Proof.
  unfold sameUpToCase, asciiLower. intros H.
  destruct s as [|a1 [|a2 [|a3 [|a4 [|a5 [|a6 [|a7 [|a8 s]]]]]]]];
  destruct s' as [|x1 [|x2 [|x3 [|x4 [|x5 [|x6 [|x7 [|x8 s']]]]]]]];
  simpl in H; try discriminate H; try reflexivity;
  unfold postalCodePattern_test;
  injection H; intros; same_case_chars; reflexivity.
Qed.








(** ** The resolver *)

Lemma find_first (A : Type) (p : A -> bool) (l : list A) (x : A) :
  find p l = Some x ->
  exists l1 l2, l = l1 ++ x :: l2 /\ p x = true /\
                forall y, In y l1 -> p y = false.
Proof.
  induction l as [|a l IH]; simpl; [discriminate|].
  destruct (p a) eqn:E.
  - intros [= ->]. exists [], l. simpl. tauto.
  - intros H. destruct (IH H) as (l1 & l2 & -> & Hx & Hl).
    exists (a :: l1), l2. simpl. repeat split; auto.
    intros y [<- | Hy]; auto.
Qed.

Lemma find_is_some (A : Type) (p : A -> bool) (l : list A) (x : A) :
  In x l -> p x = true -> exists y, find p l = Some y.
Proof.
  intros Hin Hp. destruct (find p l) eqn:E; eauto.
  rewrite (find_none _ _ E _ Hin) in Hp. discriminate.
Qed.

Lemma postalCodePattern_test_length s :
  postalCodePattern_test s = true -> (6 <= List.length s)%nat.
Proof.
  destruct s as [|a1 [|a2 [|a3 [|a4 [|a5 [|a6 s]]]]]]; simpl;
    try discriminate; intros; lia.
Qed.

Section ResolverFacts.

Variable toLowerCase : jsstring -> jsstring.
Variable toUpperCase : jsstring -> jsstring.

Lemma textMatch_isTextHit query m :
  textMatch toLowerCase (toLowerCase query) m = isTextHit toLowerCase query m.
Proof.
  unfold textMatch, isTextHit. simpl. rewrite orb_false_r, !orb_assoc.
  reflexivity.
Qed.

Lemma filter_textMatch query roster :
  filter (textMatch toLowerCase (toLowerCase query)) roster
  = filter (isTextHit toLowerCase query) roster.
Proof.
  apply filter_ext. intros m. apply textMatch_isTextHit.
Qed.

(** What [searchMP] does once the query has passed validation. *)
Lemma searchMP_valid fetch w :
  (2 <= List.length (trim (searchInput (ui w))))%nat ->
  searchMP toLowerCase toUpperCase fetch w =
  (let query := trim (searchInput (ui w)) in
   setLoading true ;; setError [] ;; setMp None ;; setSuggestions [] ;;
   setUsedPostalCode false ;;
   (if postalCodePattern_test query
    then postalPath toLowerCase fetch (allMPs (ui w))
           (normalizePostalCode toUpperCase query)
    else textPath toLowerCase (allMPs (ui w)) query)) w.
Proof.
  intros H. unfold searchMP.
  destruct (trim (searchInput (ui w))) as [|c q] eqn:E; [simpl in H; lia|].
  replace (Js.eqb (c :: q) []) with false
    by (symmetry; apply jseqb_neq; discriminate).
  destruct (Nat.ltb_spec (List.length (c :: q)) 2); [lia|]. reflexivity.
Qed.

(** C9.  A query that is empty or shorter than two characters once trimmed
    gets a validation message and nothing else happens: no request, no
    timer, no tracking, and the rest of the state is as it was, so neither
    the postal-code branch nor the text branch has run. *)
Theorem validation_error_without_query fetch w :
  (List.length (trim (searchInput (ui w))) < 2)%nat ->
  let w' := searchMP toLowerCase toUpperCase fetch w in
  (error (ui w') = msgEmpty \/ error (ui w') = msgTooShort) /\
  error (ui w') <> [] /\
  effects w' = effects w /\
  mp (ui w') = mp (ui w) /\
  suggestions (ui w') = suggestions (ui w) /\
  loading (ui w') = loading (ui w) /\
  usedPostalCode (ui w') = usedPostalCode (ui w).
Proof.
  intros H. unfold searchMP.
  destruct (Js.eqb (trim (searchInput (ui w))) []) eqn:E.
  - simpl. repeat split; auto. discriminate.
  - destruct (Nat.ltb_spec (List.length (trim (searchInput (ui w)))) 2);
      [|lia].
    simpl. repeat split; auto. discriminate.
Qed.

(** C6.  The text search over a query that passed validation and is no
    postal code: no hit gives the not-found message, one hit gives that
    record as the result, several hits give the first ten hits in roster
    order as suggestions. *)
Theorem text_search_outcome fetch w :
  let query := trim (searchInput (ui w)) in
  let hits := filter (isTextHit toLowerCase query) (allMPs (ui w)) in
  let s' := ui (searchMP toLowerCase toUpperCase fetch w) in
  (2 <= List.length query)%nat ->
  postalCodePattern_test query = false ->
  (hits = [] ->
     mp s' = None /\ suggestions s' = [] /\ error s' = msgNotFound) /\
  (forall m, hits = [m] ->
     mp s' = Some m /\ suggestions s' = [] /\ error s' = []) /\
  ((2 <= List.length hits)%nat ->
     mp s' = None /\ suggestions s' = firstn 10 hits /\
     List.length (suggestions s') = Nat.min 10 (List.length hits) /\
     error s' = msgMatches (List.length hits)).
Proof.
  intros query hits s' Hlen Hpat. subst s'.
  rewrite searchMP_valid by exact Hlen. cbv zeta. fold query. rewrite Hpat.
  unfold textPath, seq. rewrite filter_textMatch. fold hits.
  destruct hits as [|m [|m' l]]; (split; [|split]).
  - intros _. repeat split.
  - discriminate.
  - simpl. lia.
  - discriminate.
  - intros ? [= <-]. repeat split.
  - simpl. lia.
  - discriminate.
  - discriminate.
  - intros _. split; [reflexivity|]. split; [reflexivity|].
    split; [|reflexivity].
    match goal with
    | |- List.length ?x = _ => change x with (firstn 10 (m :: m' :: l))
    end.
    apply length_firstn.
Qed.

Lemma find_all_false (A : Type) (p : A -> bool) (l : list A) :
  (forall x, In x l -> p x = false) -> find p l = None.
Proof.
  induction l as [|a l IH]; simpl; intros H; [reflexivity|].
  rewrite (H a) by auto. apply IH. auto.
Qed.

(** C1, as the code has it.  After a search that passed validation, the
    result and the suggestion list are never both populated.  The message
    field is populated together with the suggestion list (it then holds the
    number of matches) and together with the result when the result is the
    default contact standing in for a vacant seat (it then holds the vacancy
    note); a result from the roster comes with an empty message. *)
Theorem search_outcome_population fetch w :
  let s' := ui (searchMP toLowerCase toUpperCase fetch w) in
  (2 <= List.length (trim (searchInput (ui w))))%nat ->
  (mp s' = None \/ suggestions s' = []) /\
  (suggestions s' <> [] ->
     exists n, (2 <= n)%nat /\ error s' = msgMatches n /\ error s' <> []) /\
  (forall m, mp s' = Some m -> error s' <> [] ->
     isDefault m = Some true /\
     exists dn, actualConstituency m = Some dn /\ error s' = msgVacant dn) /\
  (populated s' <= 2)%nat.
Proof.
  intros s' Hlen. subst s'. rewrite searchMP_valid by exact Hlen. cbv zeta.
  destruct (postalCodePattern_test (trim (searchInput (ui w)))).
  - unfold postalPath, seq.
    destruct (lookupDistrict toLowerCase _) as [e | dn].
    + split; [left; reflexivity|]. split; [|split].
      * intros H. now elim H.
      * intros ? H. discriminate H.
      * unfold populated. simpl. destruct (catchMessage e); simpl; lia.
    + unfold resolveDistrict, seq.
      destruct (findMP toLowerCase (allMPs (ui w)) dn) as [m0|].
      * split; [right; reflexivity|]. split; [|split].
        -- intros H. now elim H.
        -- intros ? _ H. now elim H.
        -- unfold populated. simpl. lia.
      * destruct (find isMarkCarney (allMPs (ui w))) as [mc|].
        -- split; [right; reflexivity|]. split; [|split].
           ++ intros H. now elim H.
           ++ intros ? [= <-] _. split; [reflexivity|].
              exists dn. split; reflexivity.
           ++ unfold populated. simpl. lia.
        -- split; [left; reflexivity|]. split; [|split].
           ++ intros H. now elim H.
           ++ intros ? H. discriminate H.
           ++ unfold populated. simpl. lia.
  - unfold textPath, seq.
    destruct (filter _ (allMPs (ui w))) as [|m [|m' l]] eqn:E.
    + split; [left; reflexivity|]. split; [|split].
      * intros H. now elim H.
      * intros ? H. discriminate H.
      * unfold populated. simpl. lia.
    + split; [right; reflexivity|]. split; [|split].
      * intros H. now elim H.
      * intros ? _ H. now elim H.
      * unfold populated. simpl. lia.
    + split; [left; reflexivity|]. split; [|split].
      * intros _. exists (List.length (m :: m' :: l)).
        split; [simpl; lia|]. split; [reflexivity|discriminate].
      * intros ? H. discriminate H.
      * unfold populated. simpl. lia.
Qed.

(** The postal-code branch once the service has named a federal district. *)
Lemma searchMP_district fetch w data b :
  postalCodePattern_test (trim (searchInput (ui w))) = true ->
  fetch (representUrl (normalizePostalCode toUpperCase
                         (trim (searchInput (ui w)))))
  = Response true (inr data) ->
  federalDistrict toLowerCase data = Some b ->
  searchMP toLowerCase toUpperCase fetch w =
  (setLoading true ;; setError [] ;; setMp None ;; setSuggestions [] ;;
   setUsedPostalCode false ;; setUsedPostalCode true ;;
   perform (Fetch (representUrl (normalizePostalCode toUpperCase
                                   (trim (searchInput (ui w)))))) ;;
   resolveDistrict toLowerCase (allMPs (ui w)) (name b)
     (normalizePostalCode toUpperCase (trim (searchInput (ui w)))) ;;
   setLoading false) w.
Proof.
  intros Hpat Hfetch Hfed.
  rewrite searchMP_valid
    by (apply postalCodePattern_test_length in Hpat; lia).
  cbv zeta. rewrite Hpat. unfold postalPath, seq at 1 2 3 4 5 6 7.
  rewrite Hfetch. unfold lookupDistrict. rewrite Hfed. reflexivity.
Qed.

(** C4.  When the roster has a record whose constituency is the district
    named by the service, up to case, the result is the first such record
    of the roster, as it stands in the roster and with no vacancy note:
    the default contact is not substituted. *)
Theorem exact_match_is_returned fetch w data b m :
  let query := trim (searchInput (ui w)) in
  let roster := allMPs (ui w) in
  let s' := ui (searchMP toLowerCase toUpperCase fetch w) in
  postalCodePattern_test query = true ->
  fetch (representUrl (normalizePostalCode toUpperCase query))
  = Response true (inr data) ->
  federalDistrict toLowerCase data = Some b ->
  In m roster ->
  toLowerCase (constituency m) = toLowerCase (name b) ->
  exists m0 before after,
    roster = before ++ m0 :: after /\
    toLowerCase (constituency m0) = toLowerCase (name b) /\
    (forall x, In x before ->
               toLowerCase (constituency x) <> toLowerCase (name b)) /\
    mp s' = Some m0 /\ error s' = [] /\ suggestions s' = [] /\
    ((forall x, In x roster ->
                toLowerCase (constituency x) = toLowerCase (name b) -> x = m)
     -> m0 = m).
Proof.
  intros query roster s' Hpat Hfetch Hfed Hin Hm. subst s'.
  rewrite (searchMP_district _ _ _ _ Hpat Hfetch Hfed).
  destruct (find_is_some _ (exactMatch toLowerCase (name b)) roster m Hin)
    as [m0 Hfind]; [now apply jseqb_eq|].
  destruct (find_first _ _ _ _ Hfind) as (l1 & l2 & Hsplit & Hm0 & Hl1).
  apply jseqb_eq in Hm0.
  exists m0, l1, l2. split; [exact Hsplit|]. split; [exact Hm0|].
  split; [intros x Hx; apply jseqb_neq; now apply Hl1|].
  unfold resolveDistrict, findMP, seq. fold roster. rewrite Hfind. simpl.
  repeat split.
  intros Huniq. apply Huniq; [|exact Hm0].
  rewrite Hsplit. apply in_or_app. right. now left.
Qed.

(** C5.  When no record of the roster matches the district, exactly or by
    prefix, the result is the first record named Mark Carney with the three
    flags added and every other field kept; without such a record the
    search ends with a message and no result. *)
Theorem default_contact_substitution fetch w data b :
  let query := trim (searchInput (ui w)) in
  let roster := allMPs (ui w) in
  let s' := ui (searchMP toLowerCase toUpperCase fetch w) in
  postalCodePattern_test query = true ->
  fetch (representUrl (normalizePostalCode toUpperCase query))
  = Response true (inr data) ->
  federalDistrict toLowerCase data = Some b ->
  (forall x, In x roster ->
     exactMatch toLowerCase (name b) x = false /\
     prefixMatch toLowerCase (name b) x = false) ->
  ((exists x, In x roster /\ fullName x = markCarneyName) ->
   exists mc r,
     find isMarkCarney roster = Some mc /\
     In mc roster /\ fullName mc = markCarneyName /\
     mp s' = Some r /\
     isDefault r = Some true /\
     actualConstituency r = Some (name b) /\
     postalCode r = Some (stripWhiteSpace (toUpperCase query)) /\
     firstName r = firstName mc /\ lastName r = lastName mc /\
     fullName r = fullName mc /\ constituency r = constituency mc /\
     province r = province mc /\ party r = party mc /\
     email r = email mc /\
     suggestions s' = [] /\ error s' = msgVacant (name b)) /\
  ((forall x, In x roster -> fullName x <> markCarneyName) ->
   mp s' = None /\ suggestions s' = [] /\
   error s' = msgUnmatched (name b) /\ error s' <> []).
Proof.
  intros query roster s' Hpat Hfetch Hfed Hno. subst s'.
  rewrite (searchMP_district _ _ _ _ Hpat Hfetch Hfed).
  unfold resolveDistrict, findMP, seq. fold roster.
  rewrite (find_all_false _ (exactMatch toLowerCase (name b)) roster)
    by (intros x Hx; apply (Hno x Hx)).
  rewrite (find_all_false _ (prefixMatch toLowerCase (name b)) roster)
    by (intros x Hx; apply (Hno x Hx)).
  split.
  - intros (x & Hx & Hname).
    destruct (find_is_some _ isMarkCarney roster x Hx) as [mc Hfind];
      [now apply jseqb_eq|].
    rewrite Hfind. exists mc, (defaultMP mc (name b)
                               (normalizePostalCode toUpperCase query)).
    destruct (find_some _ _ Hfind) as [Hin Hmc]. apply jseqb_eq in Hmc.
    simpl. repeat split; auto.
  - intros Habs.
    rewrite (find_all_false _ isMarkCarney roster)
      by (intros x Hx; apply jseqb_neq; now apply Habs).
    simpl. repeat split. discriminate.
Qed.

End ResolverFacts.

(** ** Concrete runs of the resolver *)

(** A query of one letter between blanks. *)
Lemma validation_error_without_query_witness :
  (List.length (trim (lit " a ")) < 2)%nat /\
  error (ui (Sample.search (Sample.federal []) (lit " a ") Sample.roster))
  = msgTooShort /\
  effects (Sample.search (Sample.federal []) (lit " a ") Sample.roster) = [].
Proof.
  assert (H : (List.length (trim (searchInput
                 (ui (Sample.world (lit " a ") Sample.roster)))) < 2)%nat)
    by (vm_compute; lia).
  split; [exact H|].
  destruct (@validation_error_without_query asciiLower asciiUpper
              (Sample.federal []) (Sample.world (lit " a ") Sample.roster) H)
    as (_ & _ & E & _).
  split; [reflexivity | exact E].
Defined.

(** The query doe has one hit in the sample roster. *)
Lemma text_search_outcome_witness :
  (2 <= List.length (trim (lit "doe")))%nat /\
  postalCodePattern_test (trim (lit "doe")) = false /\
  mp (ui (Sample.search (Sample.federal []) (lit "doe") Sample.roster))
  = Some Sample.jane.
Proof.
  assert (H : (2 <= List.length (trim (searchInput
                 (ui (Sample.world (lit "doe") Sample.roster)))))%nat)
    by (vm_compute; lia).
  split; [exact H|]. split; [reflexivity|].
  destruct (@text_search_outcome asciiLower asciiUpper (Sample.federal [])
              (Sample.world (lit "doe") Sample.roster) H eq_refl)
    as (_ & One & _).
  apply (One Sample.jane). reflexivity.
Defined.

(** The query ne has two hits in the sample roster. *)
Lemma search_outcome_population_witness :
  (2 <= List.length (trim (lit "ne")))%nat /\
  mp (ui (Sample.search (Sample.federal []) (lit "ne") Sample.roster)) = None /\
  (exists n, (2 <= n)%nat /\
     error (ui (Sample.search (Sample.federal []) (lit "ne") Sample.roster))
     = msgMatches n).
Proof.
  assert (H : (2 <= List.length (trim (searchInput
                 (ui (Sample.world (lit "ne") Sample.roster)))))%nat)
    by (vm_compute; lia).
  split; [exact H|]. split; [reflexivity|].
  destruct (@search_outcome_population asciiLower asciiUpper (Sample.federal [])
              (Sample.world (lit "ne") Sample.roster) H)
    as (_ & Sug & _).
  destruct Sug as (n & Hn & En & _); [discriminate|].
  exists n. split; [exact Hn | exact En].
Defined.

(** C1, as the claim states it, fails: after a text search with two hits the
    suggestion list and the message are both populated, and after a postal
    search that falls back on the default contact the result and the message
    are both populated. *)
Lemma search_outcome_population_counterexample :
  populated (ui (Sample.search (Sample.federal []) (lit "ne") Sample.roster))
  = 2%nat /\
  populated (ui (Sample.search (Sample.federal (lit "Foo")) (lit "k1a 0b1")
                   Sample.roster))
  = 2%nat.
Proof. split; reflexivity. Qed.

(** The district of the sample record, in capitals. *)
Lemma exact_match_is_returned_witness :
  postalCodePattern_test (trim (lit "h1a 1a1")) = true /\
  In Sample.jane Sample.roster /\
  mp (ui (Sample.search
            (Sample.federal (lit "TEST" ++ [emdash] ++ lit "RIDING"))
            (lit "h1a 1a1") Sample.roster))
  = Some Sample.jane.
Proof.
  split; [reflexivity|]. split; [left; reflexivity|].
  destruct (@exact_match_is_returned asciiLower asciiUpper
              (Sample.federal (lit "TEST" ++ [emdash] ++ lit "RIDING"))
              (Sample.world (lit "h1a 1a1") Sample.roster)
              (Sample.districtData (lit "TEST" ++ [emdash] ++ lit "RIDING"))
              (mkBoundary (Some (lit "Federal electoral district"))
                 (lit "TEST" ++ [emdash] ++ lit "RIDING"))
              Sample.jane eq_refl eq_refl eq_refl
              (or_introl eq_refl) eq_refl)
    as (m0 & l1 & l2 & _ & _ & _ & Hmp & _ & _ & Huniq).
  unfold Sample.search. rewrite Hmp. f_equal. apply Huniq.
  intros x [<- | [<- | []]]; [reflexivity | discriminate].
Defined.

(** A district without a record, with and without the default contact in
    the roster. *)
Lemma default_contact_substitution_witness :
  postalCodePattern_test (trim (lit "k1a 0b1")) = true /\
  (exists r,
     mp (ui (Sample.search (Sample.federal (lit "Foo")) (lit "k1a 0b1")
               Sample.roster)) = Some r /\
     isDefault r = Some true /\
     actualConstituency r = Some (lit "Foo") /\
     postalCode r = Some (lit "K1A0B1") /\
     email r = email Sample.carney) /\
  mp (ui (Sample.search (Sample.federal (lit "Foo")) (lit "k1a 0b1")
            [Sample.jane])) = None.
Proof.
  split; [reflexivity|].
  assert (No : forall mps x, incl mps Sample.roster -> In x mps ->
            exactMatch asciiLower (lit "Foo") x = false /\
            prefixMatch asciiLower (lit "Foo") x = false).
  { intros mps x Hincl Hx. apply Hincl in Hx.
    destruct Hx as [<- | [<- | []]]; split; reflexivity. }
  split.
  - destruct (@default_contact_substitution asciiLower asciiUpper
                (Sample.federal (lit "Foo"))
                (Sample.world (lit "k1a 0b1") Sample.roster)
                (Sample.districtData (lit "Foo"))
                (mkBoundary (Some (lit "Federal electoral district"))
                   (lit "Foo"))
                eq_refl eq_refl eq_refl
                (fun x => No Sample.roster x (incl_refl _)))
      as (Present & _).
    destruct Present
      as (mc & r & Hfind & _ & _ & Hmp & Hd & Ha & Hp & _ & _ & _ & _ & _
          & _ & He & _).
    + exists Sample.carney. split; [right; left; reflexivity | reflexivity].
    + exists r. injection Hfind as <-. repeat split; assumption.
  - destruct (@default_contact_substitution asciiLower asciiUpper
                (Sample.federal (lit "Foo"))
                (Sample.world (lit "k1a 0b1") [Sample.jane])
                (Sample.districtData (lit "Foo"))
                (mkBoundary (Some (lit "Federal electoral district"))
                   (lit "Foo"))
                eq_refl eq_refl eq_refl
                (fun x => No [Sample.jane] x
                            (fun y Hy => or_introl
                               (match Hy with
                                | or_introl e => e
                                | or_intror f => False_ind _ f
                                end))))
      as (_ & Absent).
    apply Absent. intros x [<- | []]. discriminate.
Defined.

(** ** The day count *)

Lemma startDateParsed_value : startDateParsed = (20461 * msPerDay)%Z.
Proof. reflexivity. Qed.

Lemma msPerDay_value : msPerDay = 86400000%Z.
Proof. reflexivity. Qed.

(** In a zone at or east of Greenwich the count is the number of local days
    since January 8, 2026. *)
Lemma diffDays_east (off now : Z) :
  (0 <= off < msPerDay)%Z ->
  diffDays (fixedZone off) now
  = (Day (LocalTime (fixedZone off) now) - daysFromCivil 2026 1 8)%Z.
Proof.
  intros H. unfold diffDays, setHours0, UTC, LocalTime, Day.
  cbn [fixedZone offsetAtUTC offsetAtLocal].
  rewrite startDateParsed_value.
  change (daysFromCivil 2026 1 8) with 20461%Z.
  rewrite msPerDay_value in *.
  replace ((20461 * 86400000 + off) / 86400000)%Z with 20461%Z
    by (apply Z.div_unique with (r := off); lia).
  replace ((now + off) / 86400000 * 86400000 - off
           - (20461 * 86400000 - off))%Z
    with (((now + off) / 86400000 - 20461) * 86400000)%Z by lia.
  apply Z.div_mul. lia.
Qed.

(** In a zone west of Greenwich the start date falls on the evening of
    January 7 local time, and the count is one more. *)
Lemma diffDays_west (off now : Z) :
  (- msPerDay <= off < 0)%Z ->
  diffDays (fixedZone off) now
  = (Day (LocalTime (fixedZone off) now) - daysFromCivil 2026 1 8 + 1)%Z.
Proof.
  intros H. unfold diffDays, setHours0, UTC, LocalTime, Day.
  cbn [fixedZone offsetAtUTC offsetAtLocal].
  rewrite startDateParsed_value.
  change (daysFromCivil 2026 1 8) with 20461%Z.
  rewrite msPerDay_value in *.
  replace ((20461 * 86400000 + off) / 86400000)%Z with 20460%Z
    by (apply Z.div_unique with (r := (off + 86400000)%Z); lia).
  replace ((now + off) / 86400000 * 86400000 - off
           - (20460 * 86400000 - off))%Z
    with (((now + off) / 86400000 - 20461 + 1) * 86400000)%Z by lia.
  apply Z.div_mul. lia.
Qed.

(** C8 at a clock of Ottawa.  On January 8, 2026 at noon, Eastern Standard
    Time, the local day is the start date and the count is 1; on a UTC clock
    the same local date gives 0. *)
Theorem diffDays_on_start_date_est :
  Day (LocalTime est noonJan8EST) = daysFromCivil 2026 1 8 /\
  diffDays est noonJan8EST = 1%Z /\
  diffDays (fixedZone 0) (parseDateOnly 2026 1 8 + 12 * 3600000) = 0%Z.
Proof. split; [|split]; vm_compute; reflexivity. Qed.

(** ** The choice of the template *)









(** ** The usage counter *)

Lemma split_nonempty sep s : split sep s <> [].
Proof.
  destruct s as [|c s]; simpl; [discriminate|].
  destruct (c =? sep)%N; [discriminate|].
  destruct (split sep s); discriminate.
Qed.

Lemma split_app_sep sep s : split sep (s ++ [sep]) = split sep s ++ [[]].
Proof.
  induction s as [|c s IH]; simpl.
  - now rewrite N.eqb_refl.
  - rewrite IH. destruct (c =? sep)%N; [reflexivity|].
    pose proof (split_nonempty sep s).
    destruct (split sep s); [congruence | reflexivity].
Qed.

Lemma split_app_other sep s w :
  w <> sep ->
  split sep (s ++ [w]) = mapLast (fun l => l ++ [w]) (split sep s).
Proof.
  intros Hw. induction s as [|c s IH]; simpl.
  - apply N.eqb_neq in Hw. now rewrite Hw.
  - rewrite IH. pose proof (split_nonempty sep s).
    destruct (c =? sep)%N.
    + destruct (split sep s); [congruence | reflexivity].
    + destruct (split sep s) as [|h [|h' t]]; [congruence | reflexivity |].
      reflexivity.
Qed.

Lemma mapLast_length f l : List.length (mapLast f l) = List.length l.
Proof.
  induction l as [|x [|y r] IH]; simpl in *; auto.
Qed.

Lemma mapLast_nth f l i :
  nth i (mapLast f l) [] = nth i l [] \/ nth i (mapLast f l) [] = f (nth i l []).
Proof.
  revert i. induction l as [|x [|y r] IH]; intros i.
  - left. reflexivity.
  - destruct i as [|i]; simpl; [right; reflexivity|]. left. reflexivity.
  - destruct i as [|i]; [left; reflexivity|]. apply (IH i).
Qed.

Lemma dropWhile_app_blank s w :
  isBlank s = true ->
  dropWhile isWhiteSpace (s ++ w) = dropWhile isWhiteSpace w.
Proof.
  induction s as [|c s IH]; simpl; [reflexivity|].
  intros H. apply andb_true_iff in H as [Hc Hs]. rewrite Hc. now apply IH.
Qed.

Lemma dropWhile_app_not_blank s w :
  isBlank s = false ->
  dropWhile isWhiteSpace (s ++ w) = dropWhile isWhiteSpace s ++ w.
Proof.
  induction s as [|c s IH]; simpl; [discriminate|].
  destruct (isWhiteSpace c); simpl; [exact IH | reflexivity].
Qed.

Lemma dropWhile_blank s : isBlank s = true -> dropWhile isWhiteSpace s = [].
Proof.
  intros H. rewrite <- (app_nil_r s). now rewrite dropWhile_app_blank.
Qed.

Lemma trimEnd_app_space s w :
  isWhiteSpace w = true -> trimEnd (s ++ [w]) = trimEnd s.
Proof.
  intros H. unfold trimEnd. rewrite rev_app_distr. simpl. now rewrite H.
Qed.

Lemma trim_app_space s w :
  isWhiteSpace w = true -> trim (s ++ [w]) = trim s.
Proof.
  intros H. unfold trim, trimStart.
  destruct (isBlank s) eqn:B.
  - rewrite (dropWhile_app_blank s [w] B), (dropWhile_blank s B).
    simpl. now rewrite H.
  - rewrite dropWhile_app_not_blank by exact B. now apply trimEnd_app_space.
Qed.

(** What the trailing white space removed by [trimEnd] is. *)
Lemma trimEnd_decompose s :
  exists w, isBlank w = true /\ s = trimEnd s ++ w.
Proof.
  unfold trimEnd.
  assert (G : forall l, exists w, isBlank w = true /\
                         l = w ++ dropWhile isWhiteSpace l).
  { induction l as [|c l [w [Hw Hl]]]; simpl.
    - exists []. auto.
    - destruct (isWhiteSpace c) eqn:E.
      + exists (c :: w). simpl. rewrite E, Hw. split; [reflexivity|].
        now rewrite <- Hl.
      + exists []. auto. }
  destruct (G (rev s)) as (w & Hw & Hs).
  exists (rev w). split.
  - unfold isBlank in *. rewrite forallb_forall in *.
    intros x Hx. apply Hw. now apply in_rev.
  - rewrite <- rev_app_distr, <- Hs. now rewrite rev_involutive.
Qed.

Lemma space_not_comma w : isWhiteSpace w = true -> w <> comma.
Proof. intros H ->. discriminate H. Qed.

(** White space at the end of a line does not change what the loop makes of
    the line. *)
Lemma isSendEmailRow_app_space line w :
  isWhiteSpace w = true -> isSendEmailRow (line ++ [w]) = isSendEmailRow line.
Proof.
  intros H. unfold isSendEmailRow.
  rewrite (split_app_other comma line w (space_not_comma w H)).
  rewrite mapLast_length.
  destruct (1 <? List.length (split comma line))%nat; [|reflexivity].
  destruct (mapLast_nth (fun l => l ++ [w]) (split comma line) 1) as [-> | ->];
    [reflexivity|].
  now rewrite trim_app_space.
Qed.

(** The loop counts the lines it accepts. *)
Lemma countLoop_filter lines count :
  countLoop lines count
  = (count + List.length (filter isSendEmailRow lines))%nat.
Proof.
  revert count. induction lines as [|l lines IH]; intros count; simpl.
  - lia.
  - rewrite IH. destruct (isSendEmailRow l); simpl; lia.
Qed.

Lemma countSendEmail_lines csvText :
  countSendEmail csvText
  = List.length (filter isSendEmailRow (tl (split newline (trim csvText)))).
Proof.
  unfold countSendEmail.
  pose proof (split_nonempty newline (trim csvText)).
  destruct (split newline (trim csvText)) as [|h [|l t]]; [congruence| |].
  - reflexivity.
  - change (List.length (h :: l :: t) <=? 1)%nat with false.
    cbv iota. now rewrite countLoop_filter.
Qed.

Lemma filter_head (x : jsstring) (l : list jsstring) :
  filter isSendEmailRow (x :: l)
  = if isSendEmailRow x then x :: filter isSendEmailRow l
    else filter isSendEmailRow l.
Proof. reflexivity. Qed.

Lemma count_mapLast_rows w lines :
  isWhiteSpace w = true ->
  List.length (filter isSendEmailRow (mapLast (fun l => l ++ [w]) lines))
  = List.length (filter isSendEmailRow lines).
Proof.
  intros H. induction lines as [|x [|y r] IH].
  - reflexivity.
  - cbn [mapLast filter]. rewrite isSendEmailRow_app_space by exact H.
    now destruct (isSendEmailRow x).
  - change (mapLast (fun l => l ++ [w]) (x :: y :: r))
      with (x :: mapLast (fun l => l ++ [w]) (y :: r)).
    rewrite !(filter_head x). destruct (isSendEmailRow x);
      cbn [List.length]; now rewrite IH.
Qed.

(** One more white-space character at the end of the text does not change
    the number of data lines that count. *)
Lemma data_rows_app_space s w :
  isWhiteSpace w = true ->
  List.length (filter isSendEmailRow (tl (split newline (s ++ [w]))))
  = List.length (filter isSendEmailRow (tl (split newline s))).
Proof.
  intros H. destruct (N.eq_dec w newline) as [-> | Hn].
  - rewrite split_app_sep. pose proof (split_nonempty newline s).
    destruct (split newline s) as [|h t]; [congruence|]. simpl.
    rewrite filter_app. simpl. now rewrite app_nil_r.
  - rewrite split_app_other by exact Hn.
    pose proof (split_nonempty newline s).
    destruct (split newline s) as [|h [|l t]]; [congruence|reflexivity|].
    change (tl (mapLast (fun l0 => l0 ++ [w]) (h :: l :: t)))
      with (mapLast (fun l0 => l0 ++ [w]) (l :: t)).
    now apply count_mapLast_rows.
Qed.

Lemma data_rows_app_blank s w :
  isBlank w = true ->
  List.length (filter isSendEmailRow (tl (split newline (s ++ w))))
  = List.length (filter isSendEmailRow (tl (split newline s))).
Proof.
  revert s. induction w as [|c w IH]; intros s H; simpl in *.
  - now rewrite app_nil_r.
  - apply andb_true_iff in H as [Hc Hw].
    change (s ++ c :: w) with (s ++ [c] ++ w). rewrite app_assoc.
    rewrite IH by exact Hw. now apply data_rows_app_space.
Qed.

Lemma data_rows_trimEnd s :
  List.length (filter isSendEmailRow (tl (split newline (trimEnd s))))
  = List.length (filter isSendEmailRow (tl (split newline s))).
Proof.
  destruct (trimEnd_decompose s) as (w & Hw & Hs).
  rewrite Hs at 2. symmetry. now apply data_rows_app_blank.
Qed.

Lemma joinWith_cons sep p rest :
  joinWith sep (p :: rest) = p ++ flat_map (fun l => sep :: l) rest.
Proof.
  revert p. induction rest as [|q rest IH]; intros p; simpl.
  - now rewrite app_nil_r.
  - f_equal. f_equal. apply IH.
Qed.

Lemma split_no_sep sep p : noSep sep p = true -> split sep p = [p].
Proof.
  induction p as [|c p IH]; simpl; [reflexivity|].
  intros H. apply andb_true_iff in H as [Hc Hp].
  apply negb_true_iff in Hc. rewrite Hc, (IH Hp). reflexivity.
Qed.

Lemma split_line sep p s :
  noSep sep p = true -> split sep (p ++ sep :: s) = p :: split sep s.
Proof.
  induction p as [|c p IH]; simpl.
  - intros _. now rewrite N.eqb_refl.
  - intros H. apply andb_true_iff in H as [Hc Hp].
    apply negb_true_iff in Hc. rewrite Hc, (IH Hp). reflexivity.
Qed.

Lemma split_lines sep p rest :
  noSep sep p = true -> forallb (noSep sep) rest = true ->
  split sep (p ++ flat_map (fun l => sep :: l) rest) = p :: rest.
Proof.
  revert p. induction rest as [|q rest IH]; intros p Hp Hrest; simpl.
  - rewrite app_nil_r. now apply split_no_sep.
  - apply andb_true_iff in Hrest as [Hq Hrest].
    rewrite split_line by exact Hp. f_equal. now apply IH.
Qed.

Lemma noSep_app sep a b :
  noSep sep (a ++ b) = noSep sep a && noSep sep b.
Proof. apply forallb_app. Qed.

(** Fields without a line feed make a row of one line. *)
Lemma row_noSep_newline fields :
  forallb (noSep newline) fields = true ->
  noSep newline (joinWith comma fields) = true.
Proof.
  induction fields as [|f [|g rest] IH]; intros H.
  - reflexivity.
  - cbn [forallb] in H. apply andb_true_iff in H as [H _]. exact H.
  - change (joinWith comma (f :: g :: rest))
      with (f ++ comma :: joinWith comma (g :: rest)).
    change (forallb (noSep newline) (f :: g :: rest))
      with (noSep newline f && forallb (noSep newline) (g :: rest)) in H.
    apply andb_true_iff in H as [Hf Hr].
    rewrite noSep_app, Hf.
    change (noSep newline (comma :: joinWith comma (g :: rest)))
      with (noSep newline (joinWith comma (g :: rest))).
    now apply IH.
Qed.

Lemma plainRow_newline fields :
  plainRow fields = true -> forallb (noSep newline) fields = true.
Proof. unfold plainRow. intros H. now apply andb_true_iff in H as [H _]. Qed.

Lemma quoted_inj a b : quoted a = quoted b -> a = b.
Proof.
  unfold quoted. intros [= H]. now apply app_inv_tail in H.
Qed.

(** Removing the quotes is what makes the quoted literal equal the literal. *)
Lemma stripQuotes_sendEmail x :
  eqb (stripQuotes x) sendEmail
  = eqb x sendEmail || eqb x (quoted sendEmail).
Proof.
  apply eq_true_iff_eq. rewrite orb_true_iff, !jseqb_eq.
  destruct x as [|q rest]; [simpl; split; [intros H|intros [H|H]]; discriminate|].
  unfold stripQuotes.
  destruct (rev rest) as [|q' inner] eqn:E.
  - apply (f_equal (@rev _)) in E. rewrite rev_involutive in E. simpl in E.
    subst rest. split; [intros H|intros [H|H]]; discriminate.
  - apply (f_equal (@rev _)) in E. rewrite rev_involutive in E. simpl in E.
    subst rest.
    destruct ((q =? quote)%N && (q' =? quote)%N
              && forallb (fun c => negb (isLineTerminator c)) inner) eqn:C.
    + apply andb_true_iff in C as [C _]. apply andb_true_iff in C as [Cq Cq'].
      apply N.eqb_eq in Cq, Cq'. subst q q'. split.
      * intros ->. right. reflexivity.
      * intros [H | H]; [discriminate H|]. now apply quoted_inj in H.
    + split; [tauto|]. intros [H | H]; [exact H|]. exfalso.
      injection H as -> H.
      change (rev inner ++ [q'] = sendEmail ++ [quote]) in H.
      apply app_inj_tail in H as [H ->].
      apply (f_equal (@rev _)) in H. rewrite rev_involutive in H.
      subst inner. discriminate C.
Qed.

(** What the loop makes of a plain row. *)
Lemma isSendEmailRow_join fields :
  plainRow fields = true ->
  isSendEmailRow (joinWith comma fields) = secondColumnIsSendEmail fields.
Proof.
  unfold plainRow. intros H. apply andb_true_iff in H as [_ H].
  unfold isSendEmailRow.
  destruct fields as [|f [|c rest]].
  - reflexivity.
  - cbn [firstn forallb] in H. apply andb_true_iff in H as [H _].
    cbn [joinWith]. now rewrite (split_no_sep comma f H).
  - cbn [firstn forallb] in H. apply andb_true_iff in H as [Hf H].
    apply andb_true_iff in H as [Hc _].
    assert (E : exists t, split comma (joinWith comma (f :: c :: rest))
                          = f :: c :: t).
    { destruct rest as [|g rest].
      - exists []. cbn [joinWith].
        now rewrite (split_line comma f c Hf), (split_no_sep comma c Hc).
      - exists (split comma (joinWith comma (g :: rest))).
        change (joinWith comma (f :: c :: g :: rest))
          with (f ++ comma :: c ++ comma :: joinWith comma (g :: rest)).
        now rewrite (split_line comma f _ Hf), (split_line comma c _ Hc). }
    destruct E as [t ->].
    cbn [List.length nth secondColumnIsSendEmail].
    change (1 <? S (S (List.length t)))%nat with true. cbv iota.
    apply stripQuotes_sendEmail.
Qed.

Lemma dropWhile_noSep sep p s :
  noSep sep s = true -> noSep sep (dropWhile p s) = true.
Proof.
  induction s as [|c s IH]; simpl; [reflexivity|].
  intros H. destruct (p c); [|exact H].
  apply andb_true_iff in H as [_ H]. now apply IH.
Qed.

Lemma count_rows rows :
  forallb plainRow rows = true ->
  List.length (filter isSendEmailRow (map (joinWith comma) rows))
  = List.length (filter secondColumnIsSendEmail rows).
Proof.
  induction rows as [|r rows IH]; [reflexivity|].
  intros H. cbn [forallb] in H. apply andb_true_iff in H as [Hr Hrows].
  cbn [map filter]. rewrite (isSendEmailRow_join r Hr).
  destruct (secondColumnIsSendEmail r); cbn [List.length]; now rewrite IH.
Qed.

Lemma rows_noSep_newline rows :
  forallb plainRow rows = true ->
  forallb (noSep newline) (map (joinWith comma) rows) = true.
Proof.
  induction rows as [|r rows IH]; [reflexivity|].
  intros H. cbn [forallb] in H. apply andb_true_iff in H as [Hr Hrows].
  cbn [map forallb].
  rewrite (row_noSep_newline r (plainRow_newline r Hr)). now apply IH.
Qed.

(** The parser on the text of a sheet of plain rows whose header line is
    not blank: the number of data rows whose second field is [Send email]. *)
Lemma countSendEmail_csvOf header rows :
  forallb (noSep newline) header = true ->
  forallb plainRow rows = true ->
  isBlank (joinWith comma header) = false ->
  countSendEmail (csvOf (header :: rows))
  = List.length (filter secondColumnIsSendEmail rows).
Proof.
  intros Hh Hrows Hb.
  rewrite countSendEmail_lines. unfold trim. rewrite data_rows_trimEnd.
  unfold trimStart, csvOf. cbn [map]. rewrite joinWith_cons.
  rewrite dropWhile_app_not_blank by exact Hb.
  rewrite split_lines.
  - cbn [tl]. now apply count_rows.
  - now apply dropWhile_noSep, row_noSep_newline.
  - now apply rows_noSep_newline.
Qed.




(** ** The placeholders *)

Lemma getSubstitution_plain matched before after rep :
  noSep dollar rep = true -> getSubstitution matched before after rep = rep.
Proof.
  induction rep as [|c rep IH]; simpl; [reflexivity|].
  intros H. apply andb_true_iff in H as [Hc Hr].
  apply negb_true_iff in Hc. rewrite Hc. now rewrite IH.
Qed.

Lemma replaceFrom_plain pat rep before s :
  noSep dollar rep = true ->
  replaceFrom pat rep before s = replacePlain pat rep s.
Proof.
  intros H. revert before. induction s as [|c s IH]; intros before.
  - cbn [replaceFrom replacePlain].
    destruct (startsWith [] pat); [|reflexivity].
    now rewrite getSubstitution_plain.
  - cbn [replaceFrom replacePlain].
    destruct (startsWith (c :: s) pat).
    + now rewrite getSubstitution_plain.
    + now rewrite IH.
Qed.

Lemma replace_plain s pat rep :
  noSep dollar rep = true -> replace s pat rep = replacePlain pat rep s.
Proof. intros H. now apply replaceFrom_plain. Qed.

Lemma tokenText_head t : exists u, tokenText t = lbracket :: u /\ noSep lbracket u = true.
Proof. destruct t; eexists; split; reflexivity. Qed.

(** Text without an opening bracket is stepped over. *)
Lemma replacePlain_text t rep s x :
  noSep lbracket s = true ->
  replacePlain (tokenText t) rep (s ++ x)
  = s ++ replacePlain (tokenText t) rep x.
Proof.
  destruct (tokenText_head t) as (u & -> & _).
  induction s as [|c s IH]; [reflexivity|].
  intros H. simpl in H. apply andb_true_iff in H as [Hc Hs].
  apply negb_true_iff in Hc.
  cbn [app replacePlain startsWith]. rewrite N.eqb_sym, Hc. cbn [andb].
  now rewrite IH.
Qed.

Lemma startsWith_nil s : startsWith s [] = true.
Proof. now destruct s. Qed.

Lemma startsWith_app_self p x : startsWith (p ++ x) p = true.
Proof.
  induction p as [|c p IH]; cbn [app startsWith].
  - apply startsWith_nil.
  - now rewrite N.eqb_refl.
Qed.

Lemma startsWith_placeholder t t' x :
  startsWith (tokenText t' ++ x) (tokenText t) = Token_eqb t t'.
Proof.
  destruct t, t'; cbn [Token_eqb];
    first [apply startsWith_app_self | reflexivity].
Qed.

Lemma skipn_placeholder t x :
  skipn (List.length (tokenText t)) (tokenText t ++ x) = x.
Proof. destruct t; reflexivity. Qed.

Lemma replacePlain_unfold pat rep s :
  replacePlain pat rep s
  = if startsWith s pat then rep ++ skipn (List.length pat) s
    else match s with
         | [] => []
         | c :: r => c :: replacePlain pat rep r
         end.
Proof. destruct s; reflexivity. Qed.

(** A placeholder that is the one looked for is replaced. *)
Lemma replacePlain_hit t rep x :
  replacePlain (tokenText t) rep (tokenText t ++ x) = rep ++ x.
Proof.
  rewrite replacePlain_unfold, startsWith_placeholder.
  replace (Token_eqb t t) with true by (now destruct t).
  now rewrite skipn_placeholder.
Qed.

(** Another placeholder is stepped over. *)
Lemma replacePlain_miss t t' rep x :
  Token_eqb t t' = false ->
  replacePlain (tokenText t) rep (tokenText t' ++ x)
  = tokenText t' ++ replacePlain (tokenText t) rep x.
Proof.
  intros H. rewrite replacePlain_unfold, startsWith_placeholder, H.
  destruct (tokenText_head t') as (u & -> & Hu).
  cbn [app]. f_equal. now apply replacePlain_text.
Qed.

(** [replace] on a body fills the first placeholder. *)
Lemma replace_render t rep ps :
  plainPieces ps = true -> noSep dollar rep = true ->
  replace (render ps) (tokenText t) rep = render (fillFirst t rep ps).
Proof.
  intros Hp Hd. rewrite replace_plain by exact Hd.
  induction ps as [|[s | t'] ps IH]; cbn [render fillFirst].
  - now destruct t.
  - cbn [plainPieces] in Hp. apply andb_true_iff in Hp as [Hs Hp].
    rewrite replacePlain_text by exact Hs. now rewrite IH.
  - cbn [plainPieces] in Hp. destruct (Token_eqb t t') eqn:E.
    + assert (t = t') as <- by (destruct t, t'; congruence || discriminate).
      now rewrite replacePlain_hit.
    + rewrite replacePlain_miss by exact E. cbn [render]. now rewrite IH.
Qed.





Lemma startsWith_bracket s u :
  noSep lbracket s = true -> startsWith s (lbracket :: u) = false.
Proof.
  destruct s as [|c s]; [reflexivity|]. unfold noSep.
  cbn [startsWith forallb]. intros H.
  apply andb_true_iff in H as [Hc _]. apply negb_true_iff in Hc.
  now rewrite N.eqb_sym, Hc.
Qed.

Lemma includes_bracket s u :
  noSep lbracket s = true -> includes s (lbracket :: u) = false.
Proof.
  induction s as [|c s IH]; [reflexivity|].
  intros H. cbn [includes]. rewrite (startsWith_bracket _ _ H).
  unfold noSep in H. cbn [forallb] in H.
  apply andb_true_iff in H as [_ H]. now apply IH.
Qed.

Lemma noPlaceholder_plain b : noSep lbracket b = true -> noPlaceholder b = true.
Proof.
  intros H. unfold noPlaceholder.
  destruct (tokenText_head DaysCount) as (u1 & E1 & _).
  destruct (tokenText_head MpName) as (u2 & E2 & _).
  destruct (tokenText_head ConstituencyInfo) as (u3 & E3 & _).
  cbn [tokenText] in *. rewrite E1, E2, E3.
  now rewrite !(includes_bracket _ _ H).
Qed.

Lemma plainValue_cons c s :
  plainValue (c :: s)
  = negb (c =? lbracket)%N && negb (c =? dollar)%N && plainValue s.
Proof.
  unfold plainValue, noSep. cbn [forallb].
  destruct (negb (c =? lbracket)%N), (negb (c =? dollar)%N),
    (forallb (fun c0 => negb (c0 =? lbracket)%N) s); reflexivity.
Qed.

Lemma plainValue_app a b : plainValue (a ++ b) = plainValue a && plainValue b.
Proof.
  unfold plainValue. rewrite !noSep_app.
  destruct (noSep lbracket a), (noSep lbracket b), (noSep dollar a); reflexivity.
Qed.

Lemma lit_String a s : lit (String a s) = N_of_ascii a :: lit s.
Proof. reflexivity. Qed.

Lemma plainValue_uint d : plainValue (lit (NilEmpty.string_of_uint d)) = true.
Proof.
  induction d; cbn [NilEmpty.string_of_uint]; try reflexivity;
    rewrite lit_String, plainValue_cons, IHd; reflexivity.
Qed.

(** The decimal text of an integer has digits and a sign only. *)
Lemma plainValue_ofZ z : plainValue (ofZ z) = true.
Proof.
  unfold ofZ, NilZero.string_of_int.
  destruct (Z.to_int z) as [d | d].
  - unfold NilZero.string_of_uint.
    destruct d; try reflexivity; apply plainValue_uint.
  - rewrite lit_String, plainValue_cons. cbn [andb negb].
    unfold NilZero.string_of_uint.
    destruct d; try reflexivity; apply plainValue_uint.
Qed.

Lemma plainValue_locationInfo m :
  plainValue (constituency m) = true -> plainValue (province m) = true ->
  plainValue (locationInfo m) = true.
Proof.
  intros Hc Hp. unfold locationInfo. now rewrite !plainValue_app, Hc, Hp.
Qed.









(** * More properties of the component *)

(** ** The search as a whole *)

Lemma In_firstn (A : Type) (n : nat) (l : list A) (x : A) :
  In x (firstn n l) -> In x l.
Proof.
  revert l. induction n as [|n IH]; intros [|a l]; simpl; try tauto.
  intros [-> | H]; auto.
Qed.

Section SearchFacts.

Variable toLowerCase : jsstring -> jsstring.
Variable toUpperCase : jsstring -> jsstring.

(** The cases of a search that passed validation. *)
Ltac search_cases w :=
  cbv zeta; unfold postalPath, textPath, resolveDistrict, seq;
  destruct (postalCodePattern_test (trim (searchInput (ui w))));
  [ destruct (lookupDistrict toLowerCase _) as [?e | ?dn];
    [ | destruct (findMP toLowerCase (allMPs (ui w)) _) as [?m0|];
        [ | destruct (find isMarkCarney (allMPs (ui w))) as [?mc|] ] ]
  | destruct (filter _ (allMPs (ui w))) as [|?m [|?m' ?l]] ].

(** X1.  A search that passed validation does not look at what an earlier
    search left behind: two states with the same text in the search box and
    the same roster end with the same result, suggestions, message and
    flags, and add the same effects to the log. *)
Theorem search_ignores_stale_state fetch w1 w2 :
  searchInput (ui w1) = searchInput (ui w2) ->
  allMPs (ui w1) = allMPs (ui w2) ->
  (2 <= List.length (trim (searchInput (ui w1))))%nat ->
  let s1 := ui (searchMP toLowerCase toUpperCase fetch w1) in
  let s2 := ui (searchMP toLowerCase toUpperCase fetch w2) in
  mp s1 = mp s2 /\ suggestions s1 = suggestions s2 /\ error s1 = error s2 /\
  loading s1 = loading s2 /\ usedPostalCode s1 = usedPostalCode s2 /\
  exists d,
    effects (searchMP toLowerCase toUpperCase fetch w1) = effects w1 ++ d /\
    effects (searchMP toLowerCase toUpperCase fetch w2) = effects w2 ++ d.
Proof.
  intros Hi Hr Hlen s1 s2. subst s1 s2.
  rewrite (searchMP_valid toLowerCase toUpperCase fetch w1) by exact Hlen.
  rewrite (searchMP_valid toLowerCase toUpperCase fetch w2)
    by (rewrite <- Hi; exact Hlen).
  rewrite <- Hi, <- Hr.
  search_cases w1; repeat (split; [reflexivity|]); eexists; simpl;
    rewrite <- ?app_assoc; split; reflexivity.
Qed.

(** X2.  A search, valid or not, leaves the text of the search box, the
    roster, the templates and the e-mail count as they are, and only adds to
    the log of effects. *)
Theorem search_keeps_inputs fetch w :
  let w' := searchMP toLowerCase toUpperCase fetch w in
  searchInput (ui w') = searchInput (ui w) /\
  allMPs (ui w') = allMPs (ui w) /\
  emailTemplates (ui w') = emailTemplates (ui w) /\
  emailCount (ui w') = emailCount (ui w) /\
  exists d, effects w' = effects w ++ d.
Proof.
  intros w'. subst w'.
  destruct (Nat.le_gt_cases 2 (List.length (trim (searchInput (ui w)))))
    as [Hlen | Hlen].
  - rewrite searchMP_valid by exact Hlen.
    search_cases w; repeat (split; [reflexivity|]); eexists; simpl;
      rewrite <- ?app_assoc; reflexivity.
  - unfold searchMP.
    destruct (Js.eqb (trim (searchInput (ui w))) []).
    + repeat (split; [reflexivity|]). exists []. simpl.
      now rewrite app_nil_r.
    + destruct (Nat.ltb_spec (List.length (trim (searchInput (ui w)))) 2);
        [|lia].
      repeat (split; [reflexivity|]). exists []. simpl.
      now rewrite app_nil_r.
Qed.

(** X3.  A search that passed validation ends with the loading flag off,
    whatever the network did, and with [usedPostalCode] saying whether the
    query was read as a postal code. *)
Theorem search_completes fetch w :
  (2 <= List.length (trim (searchInput (ui w))))%nat ->
  let s' := ui (searchMP toLowerCase toUpperCase fetch w) in
  loading s' = false /\
  usedPostalCode s' = postalCodePattern_test (trim (searchInput (ui w))).
Proof.
  intros Hlen s'. subst s'. rewrite searchMP_valid by exact Hlen.
  search_cases w; split; reflexivity.
Qed.



(** X6.  Every record a search shows comes from the roster: a suggestion is
    a record of the roster, and the result is a record of the roster or the
    copy of a roster record named Mark Carney with the three flags of the
    default contact added. *)
Theorem shown_records_come_from_roster fetch w :
  (2 <= List.length (trim (searchInput (ui w))))%nat ->
  let query := trim (searchInput (ui w)) in
  let roster := allMPs (ui w) in
  let s' := ui (searchMP toLowerCase toUpperCase fetch w) in
  (forall m, mp s' = Some m ->
     exists m0, In m0 roster /\
       (m = m0 \/
        (fullName m0 = markCarneyName /\
         exists dn, m = defaultMP m0 dn
                          (normalizePostalCode toUpperCase query)))) /\
  (forall x, In x (suggestions s') -> In x roster).
Proof.
  intros Hlen query roster s'. subst query s'.
  rewrite searchMP_valid by exact Hlen. cbv zeta.
  unfold postalPath, textPath, resolveDistrict, seq.
  destruct (postalCodePattern_test (trim (searchInput (ui w)))).
  - destruct (lookupDistrict toLowerCase _) as [e | dn].
    + split; [intros m H; discriminate H | intros x []].
    + unfold findMP.
      destruct (find (exactMatch toLowerCase dn) (allMPs (ui w))) as [m0|] eqn:E;
        [|destruct (find (prefixMatch toLowerCase dn) (allMPs (ui w)))
            as [m0|] eqn:P;
          [|destruct (find isMarkCarney (allMPs (ui w))) as [mc|] eqn:C]].
      * split; [|intros x []]. intros m [= <-]. exists m0.
        split; [exact (proj1 (find_some _ _ E)) | now left].
      * split; [|intros x []]. intros m [= <-]. exists m0.
        split; [exact (proj1 (find_some _ _ P)) | now left].
      * split; [|intros x []]. intros m [= <-]. exists mc.
        destruct (find_some _ _ C) as [Hin Hname]. apply jseqb_eq in Hname.
        split; [exact Hin|]. right. split; [exact Hname|]. now exists dn.
      * split; [intros m H; discriminate H | intros x []].
  - destruct (filter (textMatch toLowerCase
                        (toLowerCase (trim (searchInput (ui w)))))
                (allMPs (ui w))) as [|m [|m' l]] eqn:F.
    + split; [intros m H; discriminate H | intros x []].
    + split; [|intros x []]. intros m1 [= <-]. exists m. split; [|now left].
      assert (Hm : In m [m]) by now left.
      rewrite <- F in Hm. now apply filter_In in Hm.
    + split; [intros m1 H; discriminate H|]. intros x Hx.
      change (In x (firstn 10 (m :: m' :: l))) in Hx.
      apply In_firstn in Hx. rewrite <- F in Hx.
      now apply filter_In in Hx.
Qed.

(** X7.  A search that passed validation always leaves something to show,
    a result, suggestions or a message, as long as the network does not
    fail with an error whose message is empty. *)
Theorem search_gives_feedback fetch w :
  (2 <= List.length (trim (searchInput (ui w))))%nat ->
  (forall url, fetch url <> FetchRejected (ErrorObject []) /\
               fetch url <> Response true (inl (ErrorObject []))) ->
  (1 <= populated (ui (searchMP toLowerCase toUpperCase fetch w)))%nat.
Proof.
  intros Hlen Hnet. rewrite searchMP_valid by exact Hlen. cbv zeta.
  unfold postalPath, textPath, resolveDistrict, seq.
  destruct (postalCodePattern_test (trim (searchInput (ui w)))).
  - destruct (lookupDistrict toLowerCase _) as [e | dn] eqn:L.
    + assert (He : catchMessage e <> []).
      { unfold lookupDistrict in L.
        match type of L with
        | context [fetch ?u] => destruct (Hnet u) as [N1 N2];
                                destruct (fetch u) as [e' | [|] [e' | data]]
        end.
        - injection L as <-. destruct e' as [[|c m]|]; try discriminate.
          now elim N1.
        - injection L as <-. destruct e' as [[|c m]|]; try discriminate.
          now elim N2.
        - destruct (federalDistrict toLowerCase data); [discriminate|].
          injection L as <-. discriminate.
        - injection L as <-. discriminate.
        - injection L as <-. discriminate. }
      unfold populated. simpl. destruct (catchMessage e); [congruence|].
      simpl. lia.
    + destruct (findMP toLowerCase (allMPs (ui w)) dn) as [m0|];
        [|destruct (find isMarkCarney (allMPs (ui w))) as [mc|]];
        unfold populated; simpl; lia.
  - destruct (filter _ (allMPs (ui w))) as [|m [|m' l]];
      unfold populated; simpl; lia.
Qed.

(** X8.  Choosing a suggestion after a search gives exactly a result: the
    record chosen is the result, the suggestions and the message are
    cleared, the search box holds its name, the caveat about postal codes
    is not shown, and one beacon is sent without any request. *)
Theorem select_suggestion_resolves fetch w x :
  (2 <= List.length (trim (searchInput (ui w))))%nat ->
  let w1 := searchMP toLowerCase toUpperCase fetch w in
  let w2 := selectMP x w1 in
  In x (suggestions (ui w1)) ->
  mp (ui w2) = Some x /\
  populated (ui w2) = 1%nat /\
  showPostalNote (ui w2) = false /\
  loading (ui w2) = false /\
  searchInput (ui w2) = fullName x /\
  effects w2
  = effects w1 ++ [TrackEvent evSearchMP (fullName x) (constituency x)].
Proof.
  intros Hlen w1 w2. subst w2 w1. rewrite searchMP_valid by exact Hlen.
  search_cases w; intros Hx; first [now elim Hx | repeat split].
Qed.

(** X9.  The failures of a postal lookup end with no result and a message
    that names the cause: a response that is not ok, an answer whose
    boundary list has no federal entry (the list is [boundaries_centroid]
    when the answer has one, even an empty one, and [boundaries_concordance]
    only otherwise), an error thrown with its own message, and anything
    else thrown. *)
Theorem postal_lookup_failures fetch w :
  postalCodePattern_test (trim (searchInput (ui w))) = true ->
  let url := representUrl (normalizePostalCode toUpperCase
                             (trim (searchInput (ui w)))) in
  let s' := ui (searchMP toLowerCase toUpperCase fetch w) in
  (forall j, fetch url = Response false j ->
     mp s' = None /\ error s' = msgLookupFailed) /\
  (forall data l, fetch url = Response true (inr data) ->
     boundaries_centroid data = Some l \/
     (boundaries_centroid data = None /\
      boundaries_concordance data = Some l) \/
     (boundaries_centroid data = None /\
      boundaries_concordance data = None /\ l = []) ->
     (forall b, In b l -> isFederal toLowerCase b = false) ->
     mp s' = None /\ error s' = msgNoFederal) /\
  (forall m, fetch url = FetchRejected (ErrorObject m) \/
             fetch url = Response true (inl (ErrorObject m)) ->
     mp s' = None /\ error s' = m) /\
  (fetch url = FetchRejected OtherValue \/
   fetch url = Response true (inl OtherValue) ->
     mp s' = None /\ error s' = msgLookupError).
Proof.
  intros Hpat url s'. subst url s'.
  rewrite searchMP_valid
    by (apply postalCodePattern_test_length in Hpat; lia).
  cbv zeta. rewrite Hpat. unfold postalPath, seq.
  split; [|split; [|split]].
  - intros j ->. split; reflexivity.
  - intros data l -> Hl Hno. unfold lookupDistrict, federalDistrict.
    assert (E : boundariesOf data = l).
    { unfold boundariesOf.
      destruct Hl as [-> | [[-> ->] | [-> [-> ->]]]]; reflexivity. }
    rewrite E, (find_all_false _ (isFederal toLowerCase) l Hno).
    split; reflexivity.
  - intros m [-> | ->]; split; reflexivity.
  - intros [-> | ->]; split; reflexivity.
Qed.

(** X10.  When no record has the constituency of the district but some
    record has a constituency that starts with the first part of its name,
    the result is the first such record of the roster, as it stands and
    with no message: the default contact is not substituted. *)
Theorem prefix_match_is_returned fetch w data b m :
  let query := trim (searchInput (ui w)) in
  let roster := allMPs (ui w) in
  let s' := ui (searchMP toLowerCase toUpperCase fetch w) in
  postalCodePattern_test query = true ->
  fetch (representUrl (normalizePostalCode toUpperCase query))
  = Response true (inr data) ->
  federalDistrict toLowerCase data = Some b ->
  (forall x, In x roster -> exactMatch toLowerCase (name b) x = false) ->
  In m roster ->
  startsWith (toLowerCase (constituency m))
             (constituencyFirstPart toLowerCase (name b)) = true ->
  exists m0 before after,
    roster = before ++ m0 :: after /\
    startsWith (toLowerCase (constituency m0))
               (constituencyFirstPart toLowerCase (name b)) = true /\
    (forall x, In x before ->
       startsWith (toLowerCase (constituency x))
                  (constituencyFirstPart toLowerCase (name b)) = false) /\
    mp s' = Some m0 /\ error s' = [] /\ suggestions s' = [].
Proof.
  intros query roster s' Hpat Hfetch Hfed Hno Hin Hm. subst s'.
  rewrite (searchMP_district _ _ _ _ _ _ Hpat Hfetch Hfed).
  destruct (find_is_some _ (prefixMatch toLowerCase (name b)) roster m Hin Hm)
    as [m0 Hfind].
  destruct (find_first _ _ _ _ Hfind) as (l1 & l2 & Hsplit & Hm0 & Hl1).
  exists m0, l1, l2. split; [exact Hsplit|]. split; [exact Hm0|].
  split; [exact Hl1|].
  unfold resolveDistrict, findMP, seq. fold roster.
  rewrite (find_all_false _ (exactMatch toLowerCase (name b)) roster Hno).
  rewrite Hfind. repeat split.
Qed.

(** X11.  When the first part of the district name is empty, as for a name
    that begins with the dash, every constituency starts with it: without an
    exact match the result is the first record of the roster. *)
Theorem empty_first_part_returns_first_record fetch w data b m rest :
  let query := trim (searchInput (ui w)) in
  let s' := ui (searchMP toLowerCase toUpperCase fetch w) in
  postalCodePattern_test query = true ->
  fetch (representUrl (normalizePostalCode toUpperCase query))
  = Response true (inr data) ->
  federalDistrict toLowerCase data = Some b ->
  constituencyFirstPart toLowerCase (name b) = [] ->
  allMPs (ui w) = m :: rest ->
  (forall x, In x (m :: rest) ->
     toLowerCase (constituency x) <> toLowerCase (name b)) ->
  mp s' = Some m /\ error s' = [].
Proof.
  intros query s' Hpat Hfetch Hfed Hempty Hroster Hno. subst s'.
  rewrite (searchMP_district _ _ _ _ _ _ Hpat Hfetch Hfed).
  unfold resolveDistrict, findMP, seq. rewrite Hroster.
  rewrite (find_all_false _ (exactMatch toLowerCase (name b)) (m :: rest))
    by (intros x Hx; apply jseqb_neq; now apply Hno).
  assert (P : prefixMatch toLowerCase (name b) m = true).
  { unfold prefixMatch. rewrite Hempty.
    now destruct (toLowerCase (constituency m)). }
  assert (F : find (prefixMatch toLowerCase (name b)) (m :: rest) = Some m)
    by (cbn [find]; now rewrite P).
  rewrite F. split; reflexivity.
Qed.

(** X12.  The text search does not look at the case of the letters of the
    query: two queries that differ in the case of ASCII letters only give
    the same result, suggestions and message.  [toLowerCase] maps such
    strings to the same string. *)
Theorem text_search_ignores_case fetch w1 w2 :
  (forall s s', sameUpToCase s s' -> toLowerCase s = toLowerCase s') ->
  sameUpToCase (searchInput (ui w1)) (searchInput (ui w2)) ->
  allMPs (ui w1) = allMPs (ui w2) ->
  (2 <= List.length (trim (searchInput (ui w1))))%nat ->
  postalCodePattern_test (trim (searchInput (ui w1))) = false ->
  let s1 := ui (searchMP toLowerCase toUpperCase fetch w1) in
  let s2 := ui (searchMP toLowerCase toUpperCase fetch w2) in
  mp s1 = mp s2 /\ suggestions s1 = suggestions s2 /\ error s1 = error s2.
Proof.
  intros Hlow Hsame Hr Hlen Hpat s1 s2. subst s1 s2.
  pose proof (trim_case _ _ Hsame) as Ht.
  assert (Hlen2 : List.length (trim (searchInput (ui w2)))
                  = List.length (trim (searchInput (ui w1)))).
  { unfold sameUpToCase, asciiLower in Ht.
    apply (f_equal (@List.length _)) in Ht. now rewrite !length_map in Ht. }
  pose proof (postalCodePattern_test_case _ _ Ht) as Hpat2.
  rewrite Hpat in Hpat2.
  rewrite (searchMP_valid toLowerCase toUpperCase fetch w1) by exact Hlen.
  rewrite (searchMP_valid toLowerCase toUpperCase fetch w2)
    by (rewrite Hlen2; exact Hlen).
  cbv zeta. rewrite Hpat, Hpat2. unfold textPath, seq.
  rewrite <- (Hlow _ _ Ht), <- Hr.
  destruct (filter _ (allMPs (ui w1))) as [|m [|m' l]];
    repeat split; reflexivity.
Qed.

End SearchFacts.

(** ** The normalized postal code *)

Lemma upper_char_of_lower x a :
  asciiLowerChar x = asciiLowerChar a -> asciiUpperChar x = asciiUpperChar a.
Proof.
  unfold asciiLowerChar, asciiUpperChar, isUpperAZ, isLowerAZ.
  destruct (N.leb_spec 65 x), (N.leb_spec x 90), (N.leb_spec 65 a),
    (N.leb_spec a 90), (N.leb_spec 97 x), (N.leb_spec x 122),
    (N.leb_spec 97 a), (N.leb_spec a 122); simpl; intros; lia.
Qed.

Lemma asciiUpper_case s s' :
  sameUpToCase s s' -> asciiUpper s' = asciiUpper s.
Proof.
  unfold sameUpToCase, asciiLower, asciiUpper. revert s'.
  induction s as [|a s IH]; intros [|x s'] H; simpl in *;
    try discriminate; [reflexivity|].
  injection H as Hc Hs. now rewrite (upper_char_of_lower _ _ Hc), (IH _ Hs).
Qed.

Lemma upper_char_classes c :
  isLetter (asciiUpperChar c) = isLetter c /\
  isDigit (asciiUpperChar c) = isDigit c /\
  isWhiteSpace (asciiUpperChar c) = isWhiteSpace c /\
  isLowerAZ (asciiUpperChar c) = false.
Proof.
  unfold asciiUpperChar. destruct (isLowerAZ c) eqn:L.
  - assert (Hc : (97 <= c <= 122)%N).
    { unfold isLowerAZ in L. apply andb_true_iff in L as [L1 L2].
      apply N.leb_le in L1, L2. lia. }
    assert (Hl : isLetter c = true) by (apply isLetter_spec; lia).
    assert (Hu : isLetter (c - 32)%N = true) by (apply isLetter_spec; lia).
    rewrite Hl, Hu, (letter_not_digit _ Hl), (letter_not_digit _ Hu),
      (letter_not_space _ Hl), (letter_not_space _ Hu).
    repeat split. unfold isLowerAZ.
    destruct (N.leb_spec 97 (c - 32)); [lia | reflexivity].
  - repeat split. exact L.
Qed.

Lemma stripWhiteSpace_asciiUpper s :
  stripWhiteSpace (asciiUpper s) = asciiUpper (stripWhiteSpace s).
Proof.
  unfold stripWhiteSpace, asciiUpper.
  induction s as [|c s IH]; [reflexivity|]. cbn [map filter].
  destruct (upper_char_classes c) as (_ & _ & W & _). rewrite W.
  destruct (isWhiteSpace c); cbn [negb map]; now rewrite IH.
Qed.

Lemma letter_ascii c : isLetter c = true -> (c <? 128)%N = true.
Proof. intros H. apply isLetter_spec in H. apply N.ltb_lt. lia. Qed.

Lemma digit_ascii c : isDigit c = true -> (c <? 128)%N = true.
Proof. intros H. apply isDigit_spec in H. apply N.ltb_lt. lia. Qed.

(** What a postal code is once its separator is taken out. *)
Lemma postal_code_stripped q :
  postalCodePattern_test q = true ->
  asciiOrSpace q = true /\ postalShaped6 (stripWhiteSpace q) = true.
Proof.
  destruct q as [|a [|b [|c [|d [|e [|f [|g [|h q]]]]]]]]; simpl;
    try discriminate; intros H.
  - pose proof H as H'.
    apply andb_true_iff in H' as [H' Hf].
    apply andb_true_iff in H' as [H' He].
    apply andb_true_iff in H' as [H' Hd].
    apply andb_true_iff in H' as [H' Hc].
    apply andb_true_iff in H' as [Ha Hb].
    unfold asciiOrSpace, stripWhiteSpace. cbn [forallb filter].
    rewrite (letter_ascii _ Ha), (digit_ascii _ Hb), (letter_ascii _ Hc),
      (digit_ascii _ Hd), (letter_ascii _ He), (digit_ascii _ Hf).
    rewrite (letter_not_space _ Ha), (digit_not_space _ Hb),
      (letter_not_space _ Hc), (digit_not_space _ Hd),
      (letter_not_space _ He), (digit_not_space _ Hf).
    split; [reflexivity|]. cbn [negb postalShaped6]. exact H.
  - apply andb_true_iff in H as [H Hg].
    apply andb_true_iff in H as [H Hf].
    apply andb_true_iff in H as [H He].
    apply andb_true_iff in H as [H Hd].
    apply andb_true_iff in H as [H Hc].
    apply andb_true_iff in H as [Ha Hb].
    unfold asciiOrSpace, stripWhiteSpace. cbn [forallb filter].
    rewrite (letter_ascii _ Ha), (digit_ascii _ Hb), (letter_ascii _ Hc),
      (digit_ascii _ He), (letter_ascii _ Hf), (digit_ascii _ Hg).
    rewrite (letter_not_space _ Ha), (digit_not_space _ Hb),
      (letter_not_space _ Hc), (digit_not_space _ He),
      (letter_not_space _ Hf), (digit_not_space _ Hg), Hd.
    rewrite orb_true_r. split; [reflexivity|]. cbn [negb postalShaped6].
    now rewrite Ha, Hb, Hc, He, Hf, Hg.
Qed.

Lemma postalShaped6_asciiUpper s :
  postalShaped6 s = true ->
  postalShaped6 (asciiUpper s) = true /\
  forallb (fun c => negb (isLowerAZ c)) (asciiUpper s) = true.
Proof.
  destruct s as [|a [|b [|c [|d [|e [|f [|g s]]]]]]]; simpl;
    try discriminate; intros H.
  destruct (upper_char_classes a) as (La & _ & _ & Ua).
  destruct (upper_char_classes b) as (_ & Db & _ & Ub).
  destruct (upper_char_classes c) as (Lc & _ & _ & Uc).
  destruct (upper_char_classes d) as (_ & Dd & _ & Ud).
  destruct (upper_char_classes e) as (Le & _ & _ & Ue).
  destruct (upper_char_classes f) as (_ & Df & _ & Uf).
  rewrite La, Db, Lc, Dd, Le, Df, Ua, Ub, Uc, Ud, Ue, Uf.
  split; [exact H | reflexivity].
Qed.

(** X13.  The code sent to the geocoding service is the postal code in
    capitals and without its separator, so queries that differ only in the
    case of their letters or in the separator ask for the same URL.
    [toUpperCase] is the ASCII mapping on strings of ASCII and white-space
    characters. *)
Theorem equivalent_codes_same_request
    (toUpperCase : jsstring -> jsstring) (q q' : jsstring) :
  (forall s, asciiOrSpace s = true -> toUpperCase s = asciiUpper s) ->
  postalCodePattern_test q = true ->
  postalCodePattern_test q' = true ->
  sameUpToCase (stripWhiteSpace q) (stripWhiteSpace q') ->
  normalizePostalCode toUpperCase q' = normalizePostalCode toUpperCase q /\
  representUrl (normalizePostalCode toUpperCase q')
  = representUrl (normalizePostalCode toUpperCase q) /\
  postalShaped6 (normalizePostalCode toUpperCase q) = true /\
  forallb (fun c => negb (isLowerAZ c)) (normalizePostalCode toUpperCase q)
  = true.
Proof.
  intros Hup Hq Hq' Hsame.
  destruct (postal_code_stripped q Hq) as [Aq Sq].
  destruct (postal_code_stripped q' Hq') as [Aq' Sq'].
  assert (Nq : normalizePostalCode toUpperCase q
               = asciiUpper (stripWhiteSpace q)).
  { unfold normalizePostalCode. rewrite (Hup q Aq).
    apply stripWhiteSpace_asciiUpper. }
  assert (Nq' : normalizePostalCode toUpperCase q'
                = asciiUpper (stripWhiteSpace q')).
  { unfold normalizePostalCode. rewrite (Hup q' Aq').
    apply stripWhiteSpace_asciiUpper. }
  assert (E : normalizePostalCode toUpperCase q'
              = normalizePostalCode toUpperCase q).
  { rewrite Nq, Nq'. now apply asciiUpper_case. }
  split; [exact E|]. split; [now rewrite E|].
  rewrite Nq. now apply postalShaped6_asciiUpper.
Qed.

(** ** Concrete runs *)

(** The query doe from a state that still shows an earlier result. *)
Lemma search_ignores_stale_state_witness :
  mp (ui (searchMP asciiLower asciiUpper (Sample.federal [])
            (staleWorld (lit "doe") Sample.roster)))
  = Some Sample.jane.
Proof.
  destruct (search_ignores_stale_state asciiLower asciiUpper
              (Sample.federal [])
              (Sample.world (lit "doe") Sample.roster)
              (staleWorld (lit "doe") Sample.roster)
              eq_refl eq_refl ltac:(vm_compute; lia)) as (Hmp & _).
  rewrite <- Hmp. reflexivity.
Defined.

(** The query doe ends with the loading flag off. *)
Lemma search_completes_witness :
  loading (ui (Sample.search (Sample.federal []) (lit "doe") Sample.roster))
  = false.
Proof.
  apply (search_completes asciiLower asciiUpper (Sample.federal [])
           (Sample.world (lit "doe") Sample.roster)
           ltac:(vm_compute; lia)).
Defined.



(** The result of the query doe is a record of the sample roster. *)
Lemma shown_records_come_from_roster_witness :
  exists m0, In m0 Sample.roster /\ email m0 = lit "jane.doe@parl.gc.ca".
Proof.
  destruct (shown_records_come_from_roster asciiLower asciiUpper
              (Sample.federal [])
              (Sample.world (lit "doe") Sample.roster)
              ltac:(vm_compute; lia)) as (Hmp & _).
  destruct (Hmp Sample.jane eq_refl) as (m0 & Hin & [<- | (Hn & _)]).
  - exists Sample.jane. split; [exact Hin | reflexivity].
  - exists Sample.jane. split; [left; reflexivity | reflexivity].
Defined.

(** The query doe, on a network that answers, leaves a result to show. *)
Lemma search_gives_feedback_witness :
  (1 <= populated (ui (Sample.search (Sample.federal []) (lit "doe")
                         Sample.roster)))%nat.
Proof.
  apply (search_gives_feedback asciiLower asciiUpper (Sample.federal [])
           (Sample.world (lit "doe") Sample.roster)
           ltac:(vm_compute; lia)).
  intros url. split; discriminate.
Defined.

(** Choosing the first suggestion of the query ne. *)
Lemma select_suggestion_resolves_witness :
  In Sample.jane
     (suggestions (ui (Sample.search (Sample.federal []) (lit "ne")
                         Sample.roster))) /\
  populated (ui (selectMP Sample.jane
                   (Sample.search (Sample.federal []) (lit "ne")
                      Sample.roster))) = 1%nat.
Proof.
  assert (H : In Sample.jane
                (suggestions (ui (Sample.search (Sample.federal [])
                                    (lit "ne") Sample.roster))))
    by (left; reflexivity).
  split; [exact H|].
  apply (select_suggestion_resolves asciiLower asciiUpper (Sample.federal [])
           (Sample.world (lit "ne") Sample.roster) Sample.jane
           ltac:(vm_compute; lia) H).
Defined.

(** A postal code on a network that answers with a status that is not ok. *)
Lemma postal_lookup_failures_witness :
  error (ui (Sample.search notFoundNetwork (lit "k1a 0b1") Sample.roster))
  = msgLookupFailed.
Proof.
  destruct (postal_lookup_failures asciiLower asciiUpper notFoundNetwork
              (Sample.world (lit "k1a 0b1") Sample.roster) eq_refl)
    as (NotOk & _).
  apply (NotOk (inl OtherValue) eq_refl).
Defined.

(** A district whose name shares its first part with the sample record. *)
Lemma prefix_match_is_returned_witness :
  mp (ui (Sample.search
            (Sample.federal (lit "Test" ++ [emdash] ++ lit "Other"))
            (lit "h1a 1a1") Sample.roster))
  = Some Sample.jane.
Proof.
  destruct (prefix_match_is_returned asciiLower asciiUpper
              (Sample.federal (lit "Test" ++ [emdash] ++ lit "Other"))
              (Sample.world (lit "h1a 1a1") Sample.roster)
              (Sample.districtData (lit "Test" ++ [emdash] ++ lit "Other"))
              (mkBoundary (Some (lit "Federal electoral district"))
                 (lit "Test" ++ [emdash] ++ lit "Other"))
              Sample.jane eq_refl eq_refl eq_refl)
    as (m0 & l1 & l2 & Hsplit & _ & Hl1 & Hmp & _).
  - intros x [<- | [<- | []]]; reflexivity.
  - left. reflexivity.
  - reflexivity.
  - unfold Sample.search. rewrite Hmp. f_equal.
    destruct l1 as [|y l1].
    + now injection Hsplit as <- _.
    + injection Hsplit as <- _.
      discriminate (Hl1 Sample.jane (or_introl eq_refl)).
Defined.

(** A district whose name begins with the dash. *)
Lemma empty_first_part_returns_first_record_witness :
  mp (ui (Sample.search (Sample.federal ([emdash] ++ lit "Foo"))
            (lit "h1a 1a1") Sample.roster))
  = Some Sample.jane.
Proof.
  apply (empty_first_part_returns_first_record asciiLower asciiUpper
           (Sample.federal ([emdash] ++ lit "Foo"))
           (Sample.world (lit "h1a 1a1") Sample.roster)
           (Sample.districtData ([emdash] ++ lit "Foo"))
           (mkBoundary (Some (lit "Federal electoral district"))
              ([emdash] ++ lit "Foo"))
           Sample.jane [Sample.carney] eq_refl eq_refl eq_refl eq_refl
           eq_refl).
  intros x [<- | [<- | []]]; discriminate.
Defined.

(** The queries DOE and doe. *)
Lemma text_search_ignores_case_witness :
  mp (ui (Sample.search (Sample.federal []) (lit "DOE") Sample.roster))
  = mp (ui (Sample.search (Sample.federal []) (lit "doe") Sample.roster)).
Proof.
  apply (text_search_ignores_case asciiLower asciiUpper (Sample.federal [])
           (Sample.world (lit "DOE") Sample.roster)
           (Sample.world (lit "doe") Sample.roster)
           (fun s s' H => eq_sym H) eq_refl eq_refl
           ltac:(vm_compute; lia) eq_refl).
Defined.

(** The codes k1a 0b1 and K1A0B1. *)
Lemma equivalent_codes_same_request_witness :
  normalizePostalCode asciiUpper (lit "K1A0B1")
  = normalizePostalCode asciiUpper (lit "k1a 0b1") /\
  normalizePostalCode asciiUpper (lit "k1a 0b1") = lit "K1A0B1".
Proof.
  split; [|reflexivity].
  apply (equivalent_codes_same_request asciiUpper (lit "k1a 0b1")
           (lit "K1A0B1") (fun s _ => eq_refl) eq_refl eq_refl eq_refl).
Defined.

(** ** The first version of the composer *)

Lemma legacy_template_pieces tz now :
  Legacy.getEmailTemplate tz now
  = render [Text Legacy.opening; Placeholder MpName;
            Text (Legacy.beforeDays ++ ofZ (diffDays tz now)
                  ++ Legacy.afterDays);
            Placeholder ConstituencyInfo; Text Legacy.closing].
Proof.
  unfold Legacy.getEmailTemplate. cbn [render tokenText].
  rewrite app_nil_r, <- !app_assoc.
  replace Legacy.templateHead
    with (Legacy.opening ++ tokMpName ++ Legacy.beforeDays)
    by (vm_compute; reflexivity).
  replace Legacy.templateTail
    with (Legacy.afterDays ++ tokConstituencyInfo ++ Legacy.closing)
    by (vm_compute; reflexivity).
  now rewrite <- !app_assoc.
Qed.

Lemma legacy_text_plain z :
  noSep lbracket (Legacy.beforeDays ++ ofZ z ++ Legacy.afterDays) = true.
Proof.
  rewrite !noSep_app.
  pose proof (plainValue_ofZ z) as H. unfold plainValue in H.
  apply andb_true_iff in H as [H _]. rewrite H.
  replace (noSep lbracket Legacy.beforeDays) with true
    by (vm_compute; reflexivity).
  replace (noSep lbracket Legacy.afterDays) with true
    by (vm_compute; reflexivity).
  reflexivity.
Qed.

(** X22.  The first composer, for a record whose name has no opening
    bracket and whose name, constituency and province have no dollar sign:
    the body is the text of the template with the name after the greeting,
    the day count in the first paragraph and the constituency and province
    before the closing, followed by the note when the record stands in for
    a vacant seat. *)
Theorem legacy_body_filled tz now m :
  plainValue (fullName m) = true ->
  noSep dollar (constituency m) = true ->
  noSep dollar (province m) = true ->
  Legacy.emailBody tz now m
  = Legacy.opening ++ fullName m ++ Legacy.beforeDays
    ++ ofZ (diffDays tz now) ++ Legacy.afterDays ++ locationInfo m
    ++ Legacy.closing
    ++ (if isFallback m then Legacy.constituencyNote m else []).
Proof.
  intros Hn Hc Hp. unfold plainValue in Hn.
  apply andb_true_iff in Hn as [Hn1 Hn2].
  assert (Hl : noSep dollar (locationInfo m) = true).
  { unfold locationInfo. now rewrite !noSep_app, Hc, Hp. }
  unfold Legacy.emailBody. rewrite legacy_template_pieces.
  change tokMpName with (tokenText MpName).
  change tokConstituencyInfo with (tokenText ConstituencyInfo).
  pose proof (legacy_text_plain (diffDays tz now)) as Ht.
  rewrite (replace_render MpName (fullName m)) by
    (try exact Hn2; cbn [plainPieces]; now rewrite Ht).
  cbn [fillFirst Token_eqb].
  rewrite (replace_render MpName (fullName m)) by
    (try exact Hn2; cbn [plainPieces]; now rewrite Hn1, Ht).
  cbn [fillFirst Token_eqb].
  rewrite (replace_render ConstituencyInfo (locationInfo m)) by
    (try exact Hl; cbn [plainPieces]; now rewrite Hn1, Ht).
  cbn [fillFirst Token_eqb render].
  rewrite app_nil_r.
  destruct (isFallback m); rewrite <- ?app_assoc; [|now rewrite app_nil_r].
  reflexivity.
Qed.

Lemma noSep_legacy_note m :
  noSep lbracket (orEmpty (actualConstituency m)) = true ->
  noSep lbracket (orEmpty (postalCode m)) = true ->
  noSep lbracket (Legacy.constituencyNote m) = true.
Proof.
  intros Ha Hp. unfold Legacy.constituencyNote.
  destruct (truthy (postalCode m)); rewrite !noSep_app, ?Ha, ?Hp; reflexivity.
Qed.

(** X23.  The first composer leaves none of the three placeholders in the
    body of a record whose fields hold no opening bracket and no dollar
    sign. *)
Theorem legacy_body_has_no_placeholder tz now m :
  plainRecord m = true ->
  noPlaceholder (Legacy.emailBody tz now m) = true.
Proof.
  intros Hr. unfold plainRecord in Hr.
  apply andb_true_iff in Hr as [Hr Hpost].
  apply andb_true_iff in Hr as [Hr Hact].
  apply andb_true_iff in Hr as [Hr Hprov].
  apply andb_true_iff in Hr as [Hname Hcons].
  pose proof (plainValue_locationInfo m Hcons Hprov) as Hloc.
  pose proof Hname as Hname'.
  unfold plainValue in Hname', Hcons, Hprov, Hloc.
  apply andb_true_iff in Hname' as [Hn1 Hn2].
  apply andb_true_iff in Hcons as [Hc1 Hc2].
  apply andb_true_iff in Hprov as [Hp1 Hp2].
  apply andb_true_iff in Hloc as [Hl1 Hl2].
  rewrite (legacy_body_filled tz now m Hname Hc2 Hp2).
  apply noPlaceholder_plain.
  pose proof (legacy_text_plain (diffDays tz now)) as Ht.
  rewrite !noSep_app in Ht.
  apply andb_true_iff in Ht as [Ht1 Ht2].
  apply andb_true_iff in Ht2 as [Ht2 Ht3].
  rewrite !noSep_app.
  rewrite Hn1, Ht1, Ht2, Ht3, Hl1.
  destruct (isFallback m); [rewrite noSep_legacy_note by assumption|];
    reflexivity.
Qed.

(** The sample record on January 8, 2026 at noon in Ottawa. *)
Lemma legacy_body_filled_witness :
  startsWith (Legacy.emailBody est noonJan8EST Sample.jane)
             (lit "Dear Jane Doe,") = true.
Proof.
  rewrite (legacy_body_filled est noonJan8EST Sample.jane
             eq_refl eq_refl eq_refl).
  reflexivity.
Defined.

Lemma legacy_body_has_no_placeholder_witness :
  noPlaceholder (Legacy.emailBody est noonJan8EST Sample.carney) = true.
Proof.
  apply (legacy_body_has_no_placeholder est noonJan8EST Sample.carney eq_refl).
Defined.

(** ** The composer *)

Lemma includes_app_r a s p : includes s p = true -> includes (a ++ s) p = true.
Proof.
  intros H. induction a as [|c a IH]; [exact H|].
  cbn [app includes]. rewrite IH. apply orb_true_r.
Qed.

Lemma includes_prefix p b : includes (p ++ b) p = true.
Proof.
  destruct (p ++ b) eqn:E; cbn [includes]; rewrite <- E;
    now rewrite startsWith_app_self.
Qed.

Lemma includes_constituencyNote_district m language :
  includes (constituencyNote m language) (orEmpty (actualConstituency m))
  = true.
Proof.
  unfold constituencyNote. destruct language.
  - do 2 apply includes_app_r. apply includes_prefix.
  - do 4 apply includes_app_r. apply includes_prefix.
Qed.

Lemma includes_constituencyNote_code m language :
  truthy (postalCode m) = true ->
  includes (constituencyNote m language) (orEmpty (postalCode m)) = true.
Proof.
  intros H. unfold constituencyNote. rewrite H. destruct language.
  - do 4 apply includes_app_r. rewrite <- app_assoc.
    apply includes_app_r. rewrite <- app_assoc. apply includes_prefix.
  - do 5 apply includes_app_r. rewrite <- app_assoc.
    apply includes_app_r. rewrite <- app_assoc. apply includes_prefix.
Qed.

(** X14.  The e-mail for a vacant seat: the record that stands in for the
    seat gets the prime-minister template in English, goes to the address
    of the default contact, and its body, in either language, names the
    district of the visitor and, when there is one, the postal code. *)
Theorem vacant_seat_email (T : EmailTemplates) (r : Q) (mc : MP)
    (dn queryUpper template : jsstring) (language : Language) :
  fullName mc = markCarneyName ->
  dn <> [] ->
  let d := defaultMP mc dn queryUpper in
  chooseTemplate T r d En = Normal (body (primeMinisterTemplate T)) /\
  email d = email mc /\
  includes (fillBody template d language) dn = true /\
  (queryUpper <> [] ->
   includes (fillBody template d language) queryUpper = true).
Proof.
  intros Hname Hdn d. subst d. split; [|split; [reflexivity|]].
  - unfold chooseTemplate. cbn [defaultMP fullName].
    apply jseqb_eq in Hname. now rewrite Hname.
  - assert (F : isFallback (defaultMP mc dn queryUpper) = true)
      by (destruct dn; [congruence | reflexivity]).
    unfold fillBody. rewrite F. split.
    + apply includes_app_r.
      apply (includes_constituencyNote_district
               (defaultMP mc dn queryUpper) language).
    + intros Hq. apply includes_app_r.
      apply (includes_constituencyNote_code
               (defaultMP mc dn queryUpper) language).
      destruct queryUpper; [congruence | reflexivity].
Qed.

(** The default contact for the district Foo and the code K1A0B1. *)
Lemma vacant_seat_email_witness :
  emailBody (Some sampleTemplates) est noonJan8EST 0
    (defaultMP Sample.carney (lit "Foo") (lit "K1A0B1")) En
  = Normal (fillBody (lit "Dear Prime Minister, 1 days.")
              (defaultMP Sample.carney (lit "Foo") (lit "K1A0B1")) En) /\
  includes (fillBody (lit "Dear Prime Minister, 1 days.")
              (defaultMP Sample.carney (lit "Foo") (lit "K1A0B1")) En)
           (lit "K1A0B1") = true.
Proof.
  split; [reflexivity|].
  destruct (vacant_seat_email sampleTemplates 0 Sample.carney (lit "Foo")
              (lit "K1A0B1") (lit "Dear Prime Minister, 1 days.") En
              eq_refl ltac:(discriminate)) as (_ & _ & _ & Hq).
  apply Hq. discriminate.
Defined.

Lemma randomIndex_empty r : randomIndex r 0 = 0%Z.
Proof.
  unfold randomIndex. cbn [List.length Z.of_nat].
  destruct r as [n d]. unfold Qmult, Qfloor. cbn [Qnum Qden inject_Z].
  now rewrite Z.mul_0_r.
Qed.

Lemma replace_empty pat rep : pat <> [] -> replace [] pat rep = [].
Proof. destruct pat; [congruence | reflexivity]. Qed.

(** X15.  Composing before the templates have loaded gives an empty body, or
    the note alone for a vacant seat, and throws nothing; composing from a
    template list that is empty throws, whatever is drawn. *)
Theorem compose_without_templates (tz : TimeZone) (now : Z) (r : Q) (m : MP)
    (language : Language) :
  emailBody None tz now r m language
  = Normal (if isFallback m then constituencyNote m language else []) /\
  (forall T, frenchTemplates T = [] ->
     emailBody (Some T) tz now r m Fr = TypeError) /\
  (forall T, regularTemplates T = [] -> fullName m <> markCarneyName ->
     emailBody (Some T) tz now r m En = TypeError).
Proof.
  split; [|split].
  - unfold emailBody, getEmailTemplate, fillBody.
    rewrite !replace_empty by discriminate. reflexivity.
  - intros T H. unfold emailBody, getEmailTemplate, chooseTemplate.
    rewrite H. cbn [List.length]. now rewrite randomIndex_empty.
  - intros T H Hn. unfold emailBody, getEmailTemplate, chooseTemplate.
    apply jseqb_neq in Hn. rewrite Hn, H. cbn [List.length].
    now rewrite randomIndex_empty.
Qed.

(** A template set without French bodies. *)
Lemma compose_without_templates_witness :
  emailBody (Some doubledTemplates) est noonJan8EST 0 Sample.jane Fr
  = TypeError.
Proof.
  destruct (compose_without_templates est noonJan8EST 0 Sample.jane Fr)
    as (_ & French & _).
  apply French. reflexivity.
Defined.

(** ** Days *)

Lemma diffDays_fixed (off now : Z) :
  diffDays (fixedZone off) now
  = (Day (now + off) - Day (startDateParsed + off))%Z.
Proof.
  unfold diffDays, setHours0, UTC, LocalTime, Day.
  cbn [fixedZone offsetAtUTC offsetAtLocal].
  rewrite msPerDay_value.
  replace ((now + off) / 86400000 * 86400000 - off
           - ((startDateParsed + off) / 86400000 * 86400000 - off))%Z
    with (((now + off) / 86400000 - (startDateParsed + off) / 86400000)
          * 86400000)%Z by lia.
  apply Z.div_mul. lia.
Qed.

(** X16.  On a clock at or east of Greenwich the count is the number of
    local days since January 8, 2026: 0 on that day, 1 the day after,
    negative before. *)
Theorem day_count_at_or_east_of_utc (off now : Z) :
  (0 <= off < msPerDay)%Z ->
  diffDays (fixedZone off) now
  = (localDay (fixedZone off) now - daysFromCivil 2026 1 8)%Z.
Proof.
  intros H. rewrite diffDays_fixed. unfold localDay, LocalTime.
  cbn [fixedZone offsetAtUTC]. f_equal.
  rewrite startDateParsed_value. unfold Day.
  change (daysFromCivil 2026 1 8) with 20461%Z. symmetry.
  apply Z.div_unique with (r := off). lia. lia.
Qed.

(** X17.  On a clock west of Greenwich the count is one more than the
    number of local days since January 8, 2026. *)
Theorem day_count_west_of_utc (off now : Z) :
  (- msPerDay <= off < 0)%Z ->
  diffDays (fixedZone off) now
  = (localDay (fixedZone off) now - daysFromCivil 2026 1 8 + 1)%Z.
Proof.
  intros H. rewrite diffDays_fixed. unfold localDay, LocalTime.
  cbn [fixedZone offsetAtUTC].
  assert (E : Day (startDateParsed + off) = 20460%Z).
  { rewrite startDateParsed_value. unfold Day. symmetry.
    apply Z.div_unique with (r := (off + msPerDay)%Z); lia. }
  rewrite E. change (daysFromCivil 2026 1 8) with 20461%Z. lia.
Qed.

(** X18.  On a clock with a fixed offset the count does not change within a
    local day, never goes back as time goes on, and is one more 24 hours
    later. *)
Theorem day_count_follows_local_days (off now : Z) :
  (forall now', localDay (fixedZone off) now' = localDay (fixedZone off) now ->
     diffDays (fixedZone off) now' = diffDays (fixedZone off) now) /\
  (forall now', (now <= now')%Z ->
     (diffDays (fixedZone off) now <= diffDays (fixedZone off) now')%Z) /\
  diffDays (fixedZone off) (now + msPerDay)
  = (diffDays (fixedZone off) now + 1)%Z.
Proof.
  rewrite !diffDays_fixed. unfold localDay, LocalTime.
  cbn [fixedZone offsetAtUTC]. split; [|split].
  - intros now' H. rewrite diffDays_fixed. now rewrite H.
  - intros now' H. rewrite diffDays_fixed.
    assert (Day (now + off) <= Day (now' + off))%Z; [|lia].
    unfold Day. apply Z.div_le_mono; [rewrite msPerDay_value|]; lia.
  - assert (Day (now + msPerDay + off) = Day (now + off) + 1)%Z; [|lia].
    unfold Day. replace (now + msPerDay + off)%Z
      with (now + off + 1 * msPerDay)%Z by lia.
    rewrite Z.div_add by (rewrite msPerDay_value; lia). reflexivity.
Qed.

Lemma day_count_at_or_east_of_utc_witness :
  diffDays (fixedZone (2 * 3600000)) (parseDateOnly 2026 1 9) = 1%Z.
Proof.
  rewrite (day_count_at_or_east_of_utc (2 * 3600000) (parseDateOnly 2026 1 9))
    by (vm_compute; split; [discriminate | reflexivity]).
  vm_compute. reflexivity.
Defined.

Lemma day_count_west_of_utc_witness :
  diffDays est noonJan8EST = 1%Z.
Proof.
  unfold est.
  rewrite (day_count_west_of_utc (-5 * 3600000) noonJan8EST)
    by (vm_compute; split; [discriminate | reflexivity]).
  vm_compute. reflexivity.
Defined.

Lemma day_count_follows_local_days_witness :
  diffDays est (noonJan8EST + msPerDay) = 2%Z.
Proof.
  destruct (day_count_follows_local_days (-5 * 3600000) noonJan8EST)
    as (_ & _ & Next).
  unfold est. rewrite Next. vm_compute. reflexivity.
Defined.

(** X19.  The drawer reads the date of a protest at noon local time, so the
    day it shows is the day written in the fixture on every clock whose
    offsets at a local time and at an instant differ by less than twelve
    hours. *)
Theorem protest_day_is_the_date (tz : TimeZone) (y m d : Z) :
  (forall t u,
     (- (12 * 3600000) < offsetAtUTC tz u - offsetAtLocal tz t
      < 12 * 3600000)%Z) ->
  protestDay tz y m d = daysFromCivil y m d.
Proof.
  intros H. unfold protestDay, localDay, parseLocalNoon, LocalTime, UTC, Day.
  set (days := daysFromCivil y m d).
  set (l := (days * msPerDay + 12 * 3600000)%Z).
  specialize (H l (l - offsetAtLocal tz l)%Z).
  set (delta := (offsetAtUTC tz (l - offsetAtLocal tz l)
                 - offsetAtLocal tz l)%Z) in *.
  symmetry.
  apply Z.div_unique with (r := (12 * 3600000 + delta)%Z);
    subst l delta; rewrite msPerDay_value in *; lia.
Qed.

Lemma protest_day_is_the_date_witness :
  protestDay est 2026 1 17 = daysFromCivil 2026 1 17.
Proof.
  apply (protest_day_is_the_date est 2026 1 17).
  intros t u. vm_compute. split; reflexivity.
Defined.

(** ** The usage counter *)

(** X20.  For a sheet given by its rows, each one line with a first and a
    second field without comma, and a header line that is not blank, the
    parser counts the data rows whose second field is [Send email], in
    quotes or not: the header never counts, and no other event does. *)
Theorem sheet_count (header : list jsstring) (rows : list (list jsstring)) :
  forallb (noSep newline) header = true ->
  forallb plainRow rows = true ->
  isBlank (joinWith comma header) = false ->
  countSendEmail (csvOf (header :: rows))
  = List.length (filter secondColumnIsSendEmail rows).
Proof. intros Hh Hr Hb. now apply countSendEmail_csvOf. Qed.

(** A sheet with a sent e-mail, a search and an e-mail sent in French. *)
Lemma sheet_count_witness :
  countSendEmail (csvOf [sampleHeader; sampleSend; sampleSearch; sampleFrench])
  = 1%nat.
Proof.
  rewrite (sheet_count sampleHeader [sampleSend; sampleSearch; sampleFrench]
             eq_refl eq_refl eq_refl).
  reflexivity.
Defined.

Lemma noSep_rev sep s : noSep sep (rev s) = noSep sep s.
Proof.
  unfold noSep. apply eq_true_iff_eq. rewrite !forallb_forall.
  split; intros H c Hc; apply H; [now apply in_rev in Hc | now apply in_rev].
Qed.

Lemma noSep_trim sep s : noSep sep s = true -> noSep sep (trim s) = true.
Proof.
  intros H. unfold trim, trimEnd, trimStart.
  rewrite noSep_rev. apply dropWhile_noSep. rewrite noSep_rev.
  now apply dropWhile_noSep.
Qed.

(** X21.  The parser counts at most one e-mail for each line after the
    first of the trimmed text; a text of one line, or none, counts 0. *)
Theorem count_bounded_by_data_lines (csvText : jsstring) :
  (countSendEmail csvText
   <= List.length (split newline (trim csvText)) - 1)%nat /\
  (noSep newline csvText = true -> countSendEmail csvText = 0%nat).
Proof.
  assert (B : (countSendEmail csvText
               <= List.length (split newline (trim csvText)) - 1)%nat).
  { rewrite countSendEmail_lines.
    eapply Nat.le_trans; [apply filter_length_le|].
    destruct (split newline (trim csvText)); simpl; lia. }
  split; [exact B|]. intros H.
  rewrite (split_no_sep newline (trim csvText) (noSep_trim _ _ H)) in B.
  simpl in B. lia.
Qed.

Lemma count_bounded_by_data_lines_witness :
  countSendEmail (lit "Timestamp,Send email") = 0%nat.
Proof.
  apply (count_bounded_by_data_lines (lit "Timestamp,Send email")).
  reflexivity.
Defined.

(** ** What is shown after a search *)

Section ViewFacts.

Variable toLowerCase : jsstring -> jsstring.
Variable toUpperCase : jsstring -> jsstring.

(** X24.  After a search that passed validation: when suggestions are shown
    there is no result card and the message stands above the list, not in
    the red box; a result card comes with the red box only for the default
    contact, and then without the caveat about postal codes; and the caveat
    is shown only after a postal search, with neither the red box nor the
    box for a vacant seat. *)
Theorem view_after_search fetch w :
  (2 <= List.length (trim (searchInput (ui w))))%nat ->
  let s' := ui (searchMP toLowerCase toUpperCase fetch w) in
  (showSuggestions s' = true ->
     showResult s' = false /\ showErrorBox s' = false /\ error s' <> []) /\
  (showResult s' = true -> showErrorBox s' = true ->
     showPostalNote s' = false /\
     exists m, mp s' = Some m /\ isDefault m = Some true) /\
  (showPostalNote s' = true ->
     showErrorBox s' = false /\ showVacancyBox s' = false /\
     postalCodePattern_test (trim (searchInput (ui w))) = true).
Proof.
  intros Hlen s'. subst s'. rewrite searchMP_valid by exact Hlen.
  cbv zeta. unfold postalPath, textPath, resolveDistrict, seq.
  destruct (postalCodePattern_test (trim (searchInput (ui w)))).
  - destruct (lookupDistrict toLowerCase _) as [e | dn];
      [|destruct (findMP toLowerCase (allMPs (ui w)) dn) as [m0|];
        [|destruct (find isMarkCarney (allMPs (ui w))) as [mc|]]];
      unfold showSuggestions, showResult, showErrorBox, showPostalNote,
        showVacancyBox; cbn.
    + repeat split; try discriminate.
    + repeat split; try discriminate.
      unfold isFallback. destruct (isDefault m0) as [[|]|];
        try discriminate; reflexivity.
    + repeat split; try discriminate. exists (defaultMP mc dn
        (normalizePostalCode toUpperCase (trim (searchInput (ui w))))).
      split; reflexivity.
    + repeat split; try discriminate.
  - destruct (filter _ (allMPs (ui w))) as [|m [|m' l]];
      unfold showSuggestions, showResult, showErrorBox, showPostalNote,
        showVacancyBox; cbn; repeat split; try discriminate.
Qed.

End ViewFacts.

(** The query ne shows suggestions and no result card. *)
Lemma view_after_search_witness :
  showSuggestions
    (ui (Sample.search (Sample.federal []) (lit "ne") Sample.roster)) = true /\
  showResult
    (ui (Sample.search (Sample.federal []) (lit "ne") Sample.roster)) = false.
Proof.
  split; [reflexivity|].
  destruct (view_after_search asciiLower asciiUpper (Sample.federal [])
              (Sample.world (lit "ne") Sample.roster)
              ltac:(vm_compute; lia)) as (Sug & _).
  apply Sug. reflexivity.
Defined.
